(** * Portfolio page script (script.js): a shallow embedding and its properties

    The script wires eleven independent components to the page once the
    document is loaded.  Each component the properties below talk about is
    embedded in a module of its own, named after its initializer:

    - [Typewriter]     initTypingEffect / typeWriter
    - [ThemeToggle]    initThemeToggle
    - [ProjectFilter]  initProjectFilter
    - [ProjectModal]   initProjectModal / openModal / closeModal
    - [ContactForm]    initContactForm
    - [SmoothScroll]   initSmoothScrolling

    JavaScript strings are sequences of UTF-16 code units, numbers that the
    script computes with are integers ([Z]); handlers that may raise run in a
    state-and-exception monad in which a raise keeps the mutations made
    before it, as in the browser. *)

From Stdlib Require Import List ZArith NArith Lia Bool String Ascii.
Import ListNotations.
Local Open Scope Z_scope.
Set Warnings "-register-all".

(* ================================================================= *)
(** ** JavaScript strings *)

Module Js.

Definition code_unit := N.
Definition str := list code_unit.

(** A literal of the source whose characters are all ASCII. *)
Definition lit (s : string) : str :=
  map N_of_ascii (list_ascii_of_string s).

Definition length (s : str) : Z := Z.of_nat (List.length s).

Fixpoint eqb (a b : str) : bool :=
  match a, b with
  | [], [] => true
  | c :: a', d :: b' => N.eqb c d && eqb a' b'
  | _, _ => false
  end.

(** [s.substring(start, end)]: both positions are clamped to
    [0 .. s.length] and swapped when out of order. *)
Definition clamp (n len : Z) : Z := Z.max 0 (Z.min n len).

Definition substring (s : str) (start finish : Z) : str :=
  let a := clamp start (length s) in
  let b := clamp finish (length s) in
  let from := Z.min a b in
  let to := Z.max a b in
  firstn (Z.to_nat (to - from)) (skipn (Z.to_nat from) s).

Fixpoint starts_with (s p : str) : bool :=
  match p, s with
  | [], _ => true
  | c :: p', d :: s' => N.eqb c d && starts_with s' p'
  | _ :: _, [] => false
  end.

(** [s.includes(p)]: [p] occurs in [s] as a contiguous run of code units. *)
Fixpoint includes (s p : str) : bool :=
  starts_with s p ||
  match s with
  | [] => false
  | _ :: s' => includes s' p
  end.

(** WhiteSpace and LineTerminator code points of ECMAScript, all of them
    in the Basic Multilingual Plane. *)
Definition is_white_space (c : code_unit) : bool :=
  (existsb (N.eqb c)
     [0x9; 0xA; 0xB; 0xC; 0xD; 0x20; 0xA0; 0x1680; 0x2028; 0x2029;
      0x202F; 0x205F; 0x3000; 0xFEFF]
   || (0x2000 <=? c) && (c <=? 0x200A))%N.

Fixpoint trim_start (s : str) : str :=
  match s with
  | [] => []
  | c :: s' => if is_white_space c then trim_start s' else s
  end.

Definition trim (s : str) : str :=
  rev (trim_start (rev (trim_start s))).

(** [parts.join(sep)] on an array whose elements are already strings. *)
Fixpoint join (sep : str) (parts : list str) : str :=
  match parts with
  | [] => []
  | [p] => p
  | p :: rest => p ++ sep ++ join sep rest
  end.

(** Exceptions the modelled handlers can raise. *)
Inductive exn := TypeError | SyntaxError.

End Js.

(* ================================================================= *)
(** ** Handlers that mutate the page and may raise *)

Module Eff.

Inductive result (St A : Type) : Type :=
| Ok (a : A) (s : St)
| Throw (e : Js.exn) (s : St).
Arguments Ok {St A} a s.
Arguments Throw {St A} e s.

Definition M (St A : Type) : Type := St -> result St A.

Definition ret {St A} (a : A) : M St A := fun s => Ok a s.

Definition bind {St A B} (c : M St A) (k : A -> M St B) : M St B :=
  fun s =>
    match c s with
    | Ok a s' => k a s'
    | Throw e s' => Throw e s'
    end.

Definition throw {St A} (e : Js.exn) : M St A := fun s => Throw e s.
Definition modify {St} (f : St -> St) : M St unit := fun s => Ok tt (f s).

(** [try { c } catch (error) { h }] *)
Definition try_catch {St A} (c : M St A) (h : Js.exn -> M St A) : M St A :=
  fun s =>
    match c s with
    | Ok a s' => Ok a s'
    | Throw e s' => h e s'
    end.

Definition state_of {St A} (r : result St A) : St :=
  match r with
  | Ok _ s => s
  | Throw _ s => s
  end.

Definition raised {St A} (r : result St A) : option Js.exn :=
  match r with
  | Ok _ _ => None
  | Throw e _ => Some e
  end.

End Eff.

Declare Scope eff_scope.
Delimit Scope eff_scope with eff.
Notation "c ;;; k" := (Eff.bind c (fun _ => k))
  (at level 61, right associativity) : eff_scope.

(* ================================================================= *)
(** ** Constants of the script *)

Module CLASSES.
Definition active : Js.str := Js.lit "active".
Definition toggle : Js.str := Js.lit "toggle".
Definition hide : Js.str := Js.lit "hide".
Definition darkMode : Js.str := Js.lit "dark-mode".
End CLASSES.

Module TIMING.
Definition typingSpeed : Z := 150.
Definition deletingSpeed : Z := 100.
Definition typingPause : Z := 1200.
Definition formStatusClear : Z := 6000.
End TIMING.

(** [element.classList]: an ordered set of tokens. *)
Module ClassList.

Definition t := list Js.str.

Definition contains (cl : t) (c : Js.str) : bool := existsb (Js.eqb c) cl.

Definition add (cl : t) (c : Js.str) : t :=
  if contains cl c then cl else cl ++ [c].

Definition remove (cl : t) (c : Js.str) : t :=
  filter (fun d => negb (Js.eqb c d)) cl.

(** [classList.toggle(c)] *)
Definition toggle (cl : t) (c : Js.str) : t :=
  if contains cl c then remove cl c else cl ++ [c].

(** [classList.toggle(c, force)] *)
Definition toggle_force (cl : t) (c : Js.str) (force : bool) : t :=
  if force then add cl c else remove cl c.

End ClassList.

(* ================================================================= *)
(** ** Typewriter effect (initTypingEffect) *)

Module Typewriter.

(** The only callback this component ever hands to [setTimeout]. *)
Inductive callback := TypeWriterCb.

(** The closure variables [index] and [isDeleting], the string last
    assigned to the target element's [innerHTML], and the timers the
    component has pending, each with the delay it was scheduled with. *)
Record world := mkWorld {
  index : Z;
  isDeleting : bool;
  innerHTML : Js.str;
  pending : list (callback * Z)
}.

Definition setTimeout (cb : callback) (delay : Z) (w : world) : world :=
  mkWorld (index w) (isDeleting w) (innerHTML w) (pending w ++ [(cb, delay)]).

Section WithText.

Variable text : Js.str.

Definition typeWriter (w : world) : world :=
  let currentText := Js.substring text 0 (index w) in
  let w := mkWorld (index w) (isDeleting w) currentText (pending w) in
  if negb (isDeleting w) && (index w <? Js.length text) then
    setTimeout TypeWriterCb TIMING.typingSpeed
      (mkWorld (index w + 1) (isDeleting w) (innerHTML w) (pending w))
  else if isDeleting w && (index w >? 0) then
    setTimeout TypeWriterCb TIMING.deletingSpeed
      (mkWorld (index w - 1) (isDeleting w) (innerHTML w) (pending w))
  else
    setTimeout TypeWriterCb TIMING.typingPause
      (mkWorld (index w) (negb (isDeleting w)) (innerHTML w) (pending w)).

(** State of the closure when [initTypingEffect] is about to make its
    direct call of [typeWriter]; [html] is what the markup put into the
    target element. *)
Definition start (html : Js.str) : world := mkWorld 0 false html [].

(** [initTypingEffect]: nothing happens without the target element. *)
Definition initTypingEffect (typingElement : option Js.str) : option world :=
  match typingElement with
  | None => None
  | Some html => Some (typeWriter (start html))
  end.

(** The event loop fires the oldest pending timer; [None] when no timer
    is pending, that is, when the animation has come to an end. *)
Definition fire (w : world) : option world :=
  match pending w with
  | [] => None
  | (TypeWriterCb, _) :: rest =>
      Some (typeWriter (mkWorld (index w) (isDeleting w) (innerHTML w) rest))
  end.

(** The world after the initial call and [k] timer firings. *)
Fixpoint after (html : Js.str) (k : nat) : option world :=
  match k with
  | O => initTypingEffect (Some html)
  | S k' =>
      match after html k' with
      | None => None
      | Some w => fire w
      end
  end.

(** What invocation number [k+1] of [typeWriter] wrote into the element,
    and the phase flag it found on entry. *)
Definition shown (html : Js.str) (k : nat) : option Js.str :=
  option_map innerHTML (after html k).

Definition deleting_on_entry (html : Js.str) (k : nat) : option bool :=
  match k with
  | O => Some (isDeleting (start html))
  | S k' => option_map isDeleting (after html k')
  end.

(** The delays of the timers pending when that invocation returns. *)
Definition delay_scheduled (html : Js.str) (k : nat) : option (list Z) :=
  option_map (fun w => map snd (pending w)) (after html k).

(** The bound the data model states for the cursor. *)
Definition index_in_range (w : world) : Prop :=
  0 <= index w <= Js.length text.

(** Number of timer firings after which the animation is where it was:
    one typing and one deleting step per code unit, and the two pauses. *)
Definition period : nat := 2 * List.length text + 2.

End WithText.

(** The string the page animates. *)
Definition text : Js.str := Js.lit "Adidtiya Kurniawan".

End Typewriter.


(* ================================================================= *)
(** ** Theme toggle (initThemeToggle) *)

Module ThemeToggle.

(** U+1F319 (crescent moon) as a surrogate pair, and U+2600 U+FE0F (sun
    with its variation selector). *)
Definition MOON : Js.str := [0xD83C; 0xDF19]%N.
Definition SUN : Js.str := [0x2600; 0xFE0F]%N.

Definition TO_LIGHT : Js.str := Js.lit "Switch to light mode".
Definition TO_DARK : Js.str := Js.lit "Switch to dark mode".

(** [document.body.classList] and the toggle element's text and
    [aria-label] attribute ([None]: attribute not set). *)
Record page := mkPage {
  body_classList : ClassList.t;
  textContent : Js.str;
  aria_label : option Js.str
}.

(** The click listener. *)
Definition on_click (p : page) : page :=
  let body := ClassList.toggle (body_classList p) CLASSES.darkMode in
  let isDarkMode := ClassList.contains body CLASSES.darkMode in
  mkPage body
    (if isDarkMode then MOON else SUN)
    (Some (if isDarkMode then TO_LIGHT else TO_DARK)).

(** [initThemeToggle]: the listener is registered only when the toggle
    element exists. *)
Definition initThemeToggle (themeToggle : option unit) : option (page -> page) :=
  match themeToggle with
  | None => None
  | Some _ => Some on_click
  end.

Fixpoint clicks (n : nat) (p : page) : page :=
  match n with
  | O => p
  | S n' => on_click (clicks n' p)
  end.

Definition is_dark (p : page) : bool :=
  ClassList.contains (body_classList p) CLASSES.darkMode.

(** Icon and label agree with the class of the body: the moon and the
    offer to switch to light mode exactly in dark mode. *)
Definition consistent (p : page) : Prop :=
  (textContent p = MOON <-> is_dark p = true) /\
  (textContent p = SUN <-> is_dark p = false) /\
  aria_label p = Some (if is_dark p then TO_LIGHT else TO_DARK).

End ThemeToggle.

(* ================================================================= *)
(** ** Project filter (initProjectFilter) *)

Module ProjectFilter.

Definition FILTER_BTN : Js.str := Js.lit "filter-btn".
Definition ALL : Js.str := Js.lit "all".

(** An element of the filter bar: its class list and its [data-filter]
    attribute ([None]: [getAttribute] returns null). *)
Record element := mkElement {
  classList : ClassList.t;
  data_filter : option Js.str
}.

(** A project card: its class list and [dataset.category] ([None]: the
    card has no [data-category] attribute, the property is undefined). *)
Record card := mkCard {
  card_classList : ClassList.t;
  category : option Js.str
}.

(** The filter container, its descendants in document order, and the
    project cards of the document in document order. *)
Record page := mkPage {
  container : element;
  descendants : list element;
  cards : list card
}.

(** [e.target] of a click that reaches the container's listener. *)
Inductive target := Self | Child (i : nat).

Definition element_at (p : page) (t : target) : option element :=
  match t with
  | Self => Some (container p)
  | Child i => nth_error (descendants p) i
  end.

(** [filterContainer.querySelector('.active')?.classList.remove('active')]:
    only the first descendant that carries the class loses it. *)
Fixpoint clear_first_active (els : list element) : list element :=
  match els with
  | [] => []
  | e :: rest =>
      if ClassList.contains (classList e) CLASSES.active
      then mkElement (ClassList.remove (classList e) CLASSES.active) (data_filter e) :: rest
      else e :: clear_first_active rest
  end.

Definition activate (e : element) : element :=
  mkElement (ClassList.add (classList e) CLASSES.active) (data_filter e).

Fixpoint update_nth (i : nat) (f : element -> element) (els : list element) : list element :=
  match els, i with
  | [], _ => []
  | e :: rest, O => f e :: rest
  | e :: rest, S i' => e :: update_nth i' f rest
  end.

Definition activate_target (t : target) (p : page) : page :=
  match t with
  | Self => mkPage (activate (container p)) (descendants p) (cards p)
  | Child i => mkPage (container p) (update_nth i activate (descendants p)) (cards p)
  end.

(** The argument of [includes] is converted to a string: null becomes
    the text "null". *)
Definition search_string (filterValue : option Js.str) : Js.str :=
  match filterValue with
  | None => Js.lit "null"
  | Some f => f
  end.

Definition is_all (filterValue : option Js.str) : bool :=
  match filterValue with
  | None => false
  | Some f => Js.eqb f ALL
  end.

(** [filterValue === 'all' || card.dataset.category.includes(filterValue)];
    calling [includes] on an undefined category raises. *)
Definition isVisible (filterValue : option Js.str) (c : card) : Js.exn + bool :=
  if is_all filterValue then inr true
  else match category c with
       | None => inl Js.TypeError
       | Some cat => inr (Js.includes cat (search_string filterValue))
       end.

(** The body of the [forEach] over the cards: the cards before a raising
    one have been updated, the others are left as they were. *)
Fixpoint filter_cards (filterValue : option Js.str) (cs : list card)
  : list card * option Js.exn :=
  match cs with
  | [] => ([], None)
  | c :: rest =>
      match isVisible filterValue c with
      | inl e => (c :: rest, Some e)
      | inr v =>
          let c' := mkCard (ClassList.toggle_force (card_classList c) CLASSES.hide (negb v))
                           (category c) in
          let (rest', r) := filter_cards filterValue rest in
          (c' :: rest', r)
      end
  end.

(** The click listener of the filter container. *)
Definition on_click (t : target) : Eff.M page unit :=
  fun p =>
    match element_at p t with
    | None => Eff.Ok tt p
    | Some tgt =>
        if negb (ClassList.contains (classList tgt) FILTER_BTN) then Eff.Ok tt p
        else
          let p1 := mkPage (container p) (clear_first_active (descendants p)) (cards p) in
          let p2 := activate_target t p1 in
          let filterValue := data_filter tgt in
          let (cs, r) := filter_cards filterValue (cards p2) in
          let p3 := mkPage (container p2) (descendants p2) cs in
          match r with
          | None => Eff.Ok tt p3
          | Some e => Eff.Throw e p3
          end
    end.

(** [initProjectFilter]: no listener without the container. *)
Definition initProjectFilter (filterContainer : option unit)
  : option (target -> Eff.M page unit) :=
  match filterContainer with
  | None => None
  | Some _ => Some on_click
  end.

(** A card is shown unless it carries the [hide] class. *)
Definition visible (c : card) : bool :=
  negb (ClassList.contains (card_classList c) CLASSES.hide).

(** What the listener makes of one card: it keeps the category, and the
    card is shown exactly when the filter is the sentinel or occurs in the
    category text. *)
Definition shown_as (f : Js.str) (c c' : card) : Prop :=
  category c' = category c /\
  (visible c' = true <->
   f = ALL \/
   exists cat pre post, category c = Some cat /\ cat = pre ++ f ++ post).

(** The reading of the specification: the category attribute is a set of
    tags separated by white space, and a card matches a filter value when
    that value is one of its tags. *)
Fixpoint split_tags (cur : Js.str) (s : Js.str) : list Js.str :=
  match s with
  | [] => match cur with [] => [] | _ => [rev cur] end
  | c :: s' =>
      if Js.is_white_space c
      then match cur with
           | [] => split_tags [] s'
           | _ => rev cur :: split_tags [] s'
           end
      else split_tags (c :: cur) s'
  end.

Definition tag_set (cat : Js.str) : list Js.str := split_tags [] cat.

Definition spec_visible (filterValue : Js.str) (cat : Js.str) : bool :=
  Js.eqb filterValue ALL || existsb (Js.eqb filterValue) (tag_set cat).

(** Two pages to run the listener on: a bar with the buttons "all" and
    "web" over the cards "web" and "mobile"; and a bar with the single
    button "web" over a single card tagged "webapp". *)
Definition page_two_cards : page :=
  mkPage (mkElement [Js.lit "filter-buttons"] None)
         [mkElement [Js.lit "filter-btn"; Js.lit "active"] (Some (Js.lit "all"));
          mkElement [Js.lit "filter-btn"] (Some (Js.lit "web"))]
         [mkCard [Js.lit "project-card"] (Some (Js.lit "web"));
          mkCard [Js.lit "project-card"] (Some (Js.lit "mobile"))].

Definition page_webapp : page :=
  mkPage (mkElement [Js.lit "filter-buttons"] None)
         [mkElement [Js.lit "filter-btn"] (Some (Js.lit "web"))]
         [mkCard [Js.lit "project-card"] (Some (Js.lit "webapp"))].

End ProjectFilter.

(* ================================================================= *)
(** ** Project modal (initProjectModal) *)

Module ProjectModal.

Definition INLINE_BLOCK : Js.str := Js.lit "inline-block".
Definition NONE : Js.str := Js.lit "none".
Definition BLOCK : Js.str := Js.lit "block".

(** [dataset] of a detail trigger; [None] is an absent data attribute. *)
Record dataset := mkDataset {
  title : option Js.str;
  desc : option Js.str;
  github : option Js.str;
  live : option Js.str
}.

(** A link of the dialog: its [href] attribute and [style.display]. *)
Record link := mkLink {
  href : option Js.str;
  display : Js.str
}.

(** The elements [openModal] looks up; [None] is an element that is not
    in the document.  The dialog itself exists, [initProjectModal] checked
    it. *)
Record page := mkPage {
  modalTitle : option Js.str;
  modalDesc : option Js.str;
  modalGithubLink : option link;
  modalLiveLink : option link;
  modal_display : Js.str
}.

(** Assigning undefined to [textContent] (a nullable DOMString) empties the
    element; assigning undefined to [href] stores the text "undefined". *)
Definition as_text (v : option Js.str) : Js.str :=
  match v with
  | None => []
  | Some s => s
  end.

Definition as_url (v : option Js.str) : Js.str :=
  match v with
  | None => Js.lit "undefined"
  | Some s => s
  end.

(** [liveLink && liveLink.trim() !== ''] *)
Definition has_live (liveLink : option Js.str) : bool :=
  match liveLink with
  | None => false
  | Some s =>
      negb (Js.eqb s []) && negb (Js.eqb (Js.trim s) [])
  end.

Definition openModal (detailButton : dataset) : Eff.M page unit :=
  fun p =>
    match modalTitle p with
    | None => Eff.Throw Js.TypeError p
    | Some _ =>
    let p := mkPage (Some (as_text (title detailButton))) (modalDesc p)
                    (modalGithubLink p) (modalLiveLink p) (modal_display p) in
    match modalDesc p with
    | None => Eff.Throw Js.TypeError p
    | Some _ =>
    let p := mkPage (modalTitle p) (Some (as_text (desc detailButton)))
                    (modalGithubLink p) (modalLiveLink p) (modal_display p) in
    match modalGithubLink p with
    | None => Eff.Throw Js.TypeError p
    | Some gh =>
    let p := mkPage (modalTitle p) (modalDesc p)
                    (Some (mkLink (Some (as_url (github detailButton))) (display gh)))
                    (modalLiveLink p) (modal_display p) in
    let liveLink := live detailButton in
    match modalLiveLink p with
    | None => Eff.Throw Js.TypeError p
    | Some liveLinkButton =>
    let liveLinkButton :=
      if has_live liveLink
      then mkLink (Some (as_url liveLink)) INLINE_BLOCK
      else mkLink (href liveLinkButton) NONE in
    Eff.Ok tt (mkPage (modalTitle p) (modalDesc p) (modalGithubLink p)
                      (Some liveLinkButton) BLOCK)
    end end end end.

Definition closeModal (p : page) : page :=
  mkPage (modalTitle p) (modalDesc p) (modalGithubLink p) (modalLiveLink p) NONE.

(** A dialog with all its parts, showing nothing yet, one whose title
    element is missing, and two detail triggers: one with a live demo and
    one without. *)
Definition page_complete : page :=
  mkPage (Some []) (Some []) (Some (mkLink None [])) (Some (mkLink None [])) NONE.

Definition page_without_title : page :=
  mkPage None (Some []) (Some (mkLink None [])) (Some (mkLink None [])) NONE.

Definition trigger_with_live : dataset :=
  mkDataset (Some (Js.lit "Shop")) (Some (Js.lit "A web shop"))
            (Some (Js.lit "https://github.com/x/shop")) (Some (Js.lit "https://x")).

Definition trigger_without_live : dataset :=
  mkDataset (Some (Js.lit "Shop")) (Some (Js.lit "A web shop"))
            (Some (Js.lit "https://github.com/x/shop")) None.

End ProjectModal.


(* ================================================================= *)
(** ** Values produced by [response.json()] *)

Module Json.

(** A number is kept as the text JavaScript prints for it: the script never
    computes with the numbers of a response, it only tests them for truth
    and prints them. *)
Inductive value :=
| Null
| Bool (b : bool)
| Num (printed : Js.str)
| Str (s : Js.str)
| Arr (items : list value)
| Obj (props : list (Js.str * value)).

(** Own property of a parsed object; of two members with the same name the
    later one wins. *)
Fixpoint lookup (k : Js.str) (props : list (Js.str * value)) : option value :=
  match props with
  | [] => None
  | (k', v) :: rest =>
      match lookup k rest with
      | Some v' => Some v'
      | None => if Js.eqb k k' then Some v else None
      end
  end.

(** [v.k] for the two names the script reads, [errors] and [message],
    which no built-in prototype defines: reading from null raises, an
    object answers with its own member, anything else with undefined
    ([None]). *)
Definition get (v : value) (k : Js.str) : Js.exn + option value :=
  match v with
  | Null => inl Js.TypeError
  | Obj props => inr (lookup k props)
  | _ => inr None
  end.

(** Truth value of a property read. *)
Definition truthy (v : option value) : bool :=
  match v with
  | None => false
  | Some Null => false
  | Some (Bool b) => b
  | Some (Num printed) => negb (Js.eqb printed (Js.lit "0"))
  | Some (Str s) => negb (Js.eqb s [])
  | Some (Arr _) => true
  | Some (Obj _) => true
  end.

(** Conversion to a string as [join] performs it on an element that is
    neither undefined nor null.  An array prints as its elements joined by
    a comma; an object prints as "[object Object]" unless a member named
    [toString] hides the inherited method, in which case the conversion
    raises. *)
Fixpoint to_string (v : value) : Js.exn + Js.str :=
  match v with
  | Null => inr (Js.lit "null")
  | Bool true => inr (Js.lit "true")
  | Bool false => inr (Js.lit "false")
  | Num printed => inr printed
  | Str s => inr s
  | Arr items =>
      match
        (fix each (l : list value) : Js.exn + list Js.str :=
           match l with
           | [] => inr []
           | x :: rest =>
               match match x with Null => inr [] | _ => to_string x end with
               | inl e => inl e
               | inr s =>
                   match each rest with
                   | inl e => inl e
                   | inr ss => inr (s :: ss)
                   end
               end
           end) items
      with
      | inl e => inl e
      | inr parts => inr (Js.join (Js.lit ",") parts)
      end
  | Obj props =>
      match lookup (Js.lit "toString") props with
      | Some _ => inl Js.TypeError
      | None => inr (Js.lit "[object Object]")
      end
  end.

(** An element of the array handed to [join]: undefined and null print as
    the empty string. *)
Definition element_string (v : option value) : Js.exn + Js.str :=
  match v with
  | None => inr []
  | Some Null => inr []
  | Some x => to_string x
  end.

Fixpoint element_strings (l : list (option value)) : Js.exn + list Js.str :=
  match l with
  | [] => inr []
  | x :: rest =>
      match element_string x with
      | inl e => inl e
      | inr s =>
          match element_strings rest with
          | inl e => inl e
          | inr ss => inr (s :: ss)
          end
      end
  end.

(** [arr.join(sep)] *)
Definition join (sep : Js.str) (l : list (option value)) : Js.exn + Js.str :=
  match element_strings l with
  | inl e => inl e
  | inr parts => inr (Js.join sep parts)
  end.

(** [items.map(f)] for a callback that may raise. *)
Fixpoint map_raising {A B} (f : A -> Js.exn + B) (l : list A) : Js.exn + list B :=
  match l with
  | [] => inr []
  | x :: rest =>
      match f x with
      | inl e => inl e
      | inr y =>
          match map_raising f rest with
          | inl e => inl e
          | inr ys => inr (y :: ys)
          end
      end
  end.

End Json.

(* ================================================================= *)
(** ** Contact form (initContactForm) *)

Module ContactForm.

Definition SENDING : Js.str := Js.lit "Mengirim...".
Definition SEND_LABEL : Js.str := Js.lit "Kirim Pesan".
Definition MSG_SUCCESS : Js.str := Js.lit "Pesan berhasil dikirim. Terima kasih!".
Definition MSG_FAILURE : Js.str := Js.lit "Oops! Ada masalah saat mengirim pesan.".
Definition MSG_CONNECTION : Js.str := Js.lit "Oops! Ada masalah koneksi.".
Definition GREEN : Js.str := Js.lit "green".
Definition RED : Js.str := Js.lit "red".
Definition SEPARATOR : Js.str := Js.lit ", ".

Record button := mkButton {
  disabled : bool;
  textContent : Js.str
}.

(** A text control of the form: the value its markup gives it and the
    value it holds now. *)
Record field := mkField {
  defaultValue : Js.str;
  value : Js.str
}.

(** The only callback this component hands to [setTimeout]. *)
Inductive callback := ClearStatus.

(** The form's submit button ([None]: the form has none), its fields, the
    status element's text and colour, the clock in milliseconds, and the
    pending timers with the time each is due. *)
Record page := mkPage {
  submitButton : option button;
  fields : list field;
  status_text : Js.str;
  status_color : Js.str;
  now : Z;
  timers : list (Z * callback)
}.

(** What the request comes to: the promise of [fetch] rejects, or it
    resolves to a response with a status and a body; [json] is what
    [response.json()] gives, [None] when that promise rejects because the
    body is not JSON text. *)
Record response := mkResponse {
  status : Z;
  json : option Json.value
}.

Inductive fetch_result :=
| Rejected
| Resolved (r : response).

(** [response.ok] *)
Definition ok (r : response) : bool :=
  (200 <=? status r) && (status r <=? 299).

(** Where the async listener is suspended. *)
Inductive awaiting := AwaitFetch | AwaitJson | Settled.

Definition set_button (f : button -> button) : Eff.M page unit :=
  fun p =>
    match submitButton p with
    | None => Eff.Throw Js.TypeError p
    | Some b =>
        Eff.Ok tt (mkPage (Some (f b)) (fields p) (status_text p) (status_color p)
                          (now p) (timers p))
    end.

Definition set_status (text color : Js.str) : Eff.M page unit :=
  Eff.modify (fun p =>
    mkPage (submitButton p) (fields p) text color (now p) (timers p)).

(** [form.reset()]: every control goes back to the value of its markup. *)
Definition reset_field (f : field) : field :=
  mkField (defaultValue f) (defaultValue f).

Definition form_reset : Eff.M page unit :=
  Eff.modify (fun p =>
    mkPage (submitButton p) (map reset_field (fields p)) (status_text p)
           (status_color p) (now p) (timers p)).

Definition setTimeout (cb : callback) (delay : Z) : Eff.M page unit :=
  Eff.modify (fun p =>
    mkPage (submitButton p) (fields p) (status_text p) (status_color p)
           (now p) (timers p ++ [(now p + delay, cb)])).

Local Open Scope eff_scope.

(** First turn: from the submit event to [await fetch(...)].  The two
    assignments to the button come before the [try]. *)
Definition on_submit : Eff.M page awaiting :=
  set_button (fun b => mkButton true (textContent b)) ;;;
  set_button (fun b => mkButton (disabled b) SENDING) ;;;
  Eff.ret AwaitFetch.

Definition catch_block : Eff.M page unit :=
  set_status MSG_CONNECTION RED.

Definition finally_block : Eff.M page unit :=
  set_button (fun b => mkButton false (textContent b)) ;;;
  set_button (fun b => mkButton (disabled b) SEND_LABEL) ;;;
  setTimeout ClearStatus TIMING.formStatusClear.

(** [data.errors ? data.errors.map(err => err.message).join(", ") : "..."] *)
Definition errorMessage (data : Json.value) : Js.exn + Js.str :=
  match Json.get data (Js.lit "errors") with
  | inl e => inl e
  | inr errors =>
      if Json.truthy errors then
        match errors with
        | Some (Json.Arr items) =>
            match Json.map_raising (fun err => Json.get err (Js.lit "message")) items with
            | inl e => inl e
            | inr messages => Json.join SEPARATOR messages
            end
        | _ => inl Js.TypeError
        end
      else inr MSG_FAILURE
  end.

(** Second turn: the promise of [fetch] has settled. *)
Definition after_fetch (fr : fetch_result) : Eff.M page awaiting :=
  match fr with
  | Rejected =>
      catch_block ;;; finally_block ;;; Eff.ret Settled
  | Resolved r =>
      if ok r then
        set_status MSG_SUCCESS GREEN ;;;
        form_reset ;;;
        finally_block ;;;
        Eff.ret Settled
      else Eff.ret AwaitJson
  end.

(** Third turn, on the failure path only: the promise of
    [response.json()] has settled. *)
Definition after_json (r : response) : Eff.M page awaiting :=
  Eff.try_catch
    (match json r with
     | None => Eff.throw Js.SyntaxError
     | Some data =>
         match errorMessage data with
         | inl e => Eff.throw e
         | inr msg => set_status msg RED
         end
     end)
    (fun _ => catch_block) ;;;
  finally_block ;;;
  Eff.ret Settled.

Local Close Scope eff_scope.

(** Timers that are due fire in the order of their due times, the older
    registration first among equals. *)
Definition run_callback (cb : callback) (p : page) : page :=
  match cb with
  | ClearStatus =>
      mkPage (submitButton p) (fields p) [] (status_color p) (now p) (timers p)
  end.

Fixpoint insert_by_due (t : Z * callback) (l : list (Z * callback)) : list (Z * callback) :=
  match l with
  | [] => [t]
  | u :: rest =>
      if fst t <? fst u then t :: u :: rest else u :: insert_by_due t rest
  end.

Definition sort_by_due (l : list (Z * callback)) : list (Z * callback) :=
  fold_left (fun acc t => insert_by_due t acc) l [].

(** The event loop runs with no other event for [dt] milliseconds. *)
Definition elapse (dt : Z) (p : page) : page :=
  let t := now p + dt in
  let due := filter (fun tm => fst tm <=? t) (timers p) in
  let later := filter (fun tm => negb (fst tm <=? t)) (timers p) in
  fold_left (fun q tm => run_callback (snd tm) q) (sort_by_due due)
    (mkPage (submitButton p) (fields p) (status_text p) (status_color p) t later).

(** A whole submission: the request takes [latency] milliseconds, reading
    the body of a failure response takes [reading] more. *)
Definition submission (fr : fetch_result) (latency reading : Z) : Eff.M page awaiting :=
  fun p =>
    match on_submit p with
    | Eff.Throw e p1 => Eff.Throw e p1
    | Eff.Ok _ p1 =>
        match after_fetch fr (elapse latency p1) with
        | Eff.Throw e p2 => Eff.Throw e p2
        | Eff.Ok Settled p2 => Eff.Ok Settled p2
        | Eff.Ok _ p2 =>
            match fr with
            | Rejected => Eff.Ok Settled p2
            | Resolved r => after_json r (elapse reading p2)
            end
        end
    end.

(** The shape the endpoint documents for an entry of the error list: an
    object whose [message] member is the string [m]. *)
Definition entry_with_message (e : Json.value) (m : Js.str) : Prop :=
  exists props, e = Json.Obj props /\
                Json.lookup (Js.lit "message") props = Some (Json.Str m).

(** The text the failure path leaves in the status element: the message
    computed from the body, or the text of the [catch] block when reading
    the body or computing the message raised. *)
Definition displayed_on_failure (r : response) : Js.str :=
  match json r with
  | None => MSG_CONNECTION
  | Some data =>
      match errorMessage data with
      | inl _ => MSG_CONNECTION
      | inr msg => msg
      end
  end.

(** The text a settled submission leaves in the status element. *)
Definition displayed (fr : fetch_result) : Js.str :=
  match fr with
  | Rejected => MSG_CONNECTION
  | Resolved r => if ok r then MSG_SUCCESS else displayed_on_failure r
  end.

(** The page when the [finally] block is through, the status having been
    set to [text] in [color] on page [q] before it. *)
Definition finished (text color : Js.str) (q : page) : page :=
  mkPage (Some (mkButton false SEND_LABEL)) (fields q) text color (now q)
         (timers q ++ [(now q + TIMING.formStatusClear, ClearStatus)]).

(** [initContactForm]: no listener without the form or the status
    element. *)
Definition initContactForm (form formStatus : option unit)
  : option (Eff.M page awaiting) :=
  match form, formStatus with
  | Some _, Some _ => Some on_submit
  | _, _ => None
  end.

(** Pages and responses to run the listener on. *)
Definition page_filled_in : page :=
  mkPage (Some (mkButton false SEND_LABEL))
         [mkField [] (Js.lit "Ana"); mkField [] (Js.lit "ana@example.org");
          mkField [] (Js.lit "Halo")]
         [] [] 0 [].

Definition page_with_default : page :=
  mkPage (Some (mkButton false SEND_LABEL))
         [mkField (Js.lit "Halo, ") (Js.lit "Halo, apa kabar?")]
         [] [] 0 [].

Definition page_without_button : page :=
  mkPage None [mkField [] (Js.lit "Ana")] [] [] 0 [].

Definition response_200 : response := mkResponse 200 None.

Definition response_422 : response :=
  mkResponse 422
    (Some (Json.Obj
       [(Js.lit "errors",
         Json.Arr [Json.Obj [(Js.lit "message", Json.Str (Js.lit "Email required"))]])])).

Definition response_not_json : response := mkResponse 500 None.

Definition response_errors_text : response :=
  mkResponse 400 (Some (Json.Obj [(Js.lit "errors", Json.Str (Js.lit "bad request"))])).

End ContactForm.

(* ================================================================= *)
(** ** Smooth scrolling (initSmoothScrolling) *)

Module SmoothScroll.

(** What [document.querySelector(sel)] does with a selector: it raises on
    text that is no selector, answers null when nothing matches, or gives
    the first matching element (named here by a number). *)
Inductive query_result :=
| Invalid
| NoMatch
| Found (el : nat).

Record page := mkPage {
  querySelector : Js.str -> query_result;
  navLinks : option ClassList.t;
  hamburger : option ClassList.t;
  scrolledTo : option nat
}.

(** The selector argument is converted to a string: a null [href]
    becomes "null". *)
Definition selector (href : option Js.str) : Js.str :=
  match href with
  | None => Js.lit "null"
  | Some s => s
  end.

(** [navLinks?.classList.contains(active)] *)
Definition nav_is_open (p : page) : bool :=
  match navLinks p with
  | None => false
  | Some cl => ClassList.contains cl CLASSES.active
  end.

(** The click listener of an anchor whose [href] attribute is [href]. *)
Definition on_click (href : option Js.str) : Eff.M page unit :=
  fun p =>
    match querySelector p (selector href) with
    | Invalid => Eff.Throw Js.SyntaxError p
    | NoMatch => Eff.Throw Js.TypeError p
    | Found el =>
        let p := mkPage (querySelector p) (navLinks p) (hamburger p) (Some el) in
        if nav_is_open p then
          Eff.Ok tt
            (mkPage (querySelector p)
                    (option_map (fun cl => ClassList.remove cl CLASSES.active) (navLinks p))
                    (option_map (fun cl => ClassList.remove cl CLASSES.toggle) (hamburger p))
                    (scrolledTo p))
        else Eff.Ok tt p
    end.

(** [initSmoothScrolling]: one listener per anchor whose [href] starts
    with a hash sign; there is no guard to pass. *)
Definition initSmoothScrolling (anchors : list (option Js.str))
  : list (Eff.M page unit) :=
  map on_click anchors.

(** A page on which no selector matches anything. *)
Definition page_without_target : page :=
  mkPage (fun _ => NoMatch) (Some [Js.lit "nav-links"]) (Some [Js.lit "hamburger"]) None.

End SmoothScroll.


(* ================================================================= *)
(** ** Hamburger menu (initHamburgerMenu) *)

Module HamburgerMenu.

(** The click listener works on the two elements the smooth-scrolling
    listener closes the menu through, so it is embedded on the same page.
    [initHamburgerMenu] registers it only when both elements exist: on a
    page that lacks one of them a click reaches no listener. *)
Definition on_click (p : SmoothScroll.page) : SmoothScroll.page :=
  match SmoothScroll.navLinks p, SmoothScroll.hamburger p with
  | Some nav, Some burger =>
      SmoothScroll.mkPage (SmoothScroll.querySelector p)
        (Some (ClassList.toggle nav CLASSES.active))
        (Some (ClassList.toggle burger CLASSES.toggle))
        (SmoothScroll.scrolledTo p)
  | _, _ => p
  end.

Fixpoint clicks (n : nat) (p : SmoothScroll.page) : SmoothScroll.page :=
  match n with
  | O => p
  | S n' => on_click (clicks n' p)
  end.

(** What the user does with the navigation: a click on the hamburger or
    on an anchor with the given [href].  A listener that raises ends
    there; the page stays as the listener left it. *)
Inductive event :=
| BurgerClick
| AnchorClick (href : option Js.str).

Definition handle (p : SmoothScroll.page) (e : event) : SmoothScroll.page :=
  match e with
  | BurgerClick => on_click p
  | AnchorClick href => Eff.state_of (SmoothScroll.on_click href p)
  end.

Definition run (es : list event) (p : SmoothScroll.page) : SmoothScroll.page :=
  fold_left handle es p.

Definition burger_is_toggled (p : SmoothScroll.page) : bool :=
  match SmoothScroll.hamburger p with
  | None => false
  | Some cl => ClassList.contains cl CLASSES.toggle
  end.

(** The menu and its button show the same state. *)
Definition in_sync (p : SmoothScroll.page) : Prop :=
  SmoothScroll.navLinks p <> None -> SmoothScroll.hamburger p <> None ->
  SmoothScroll.nav_is_open p = burger_is_toggled p.

End HamburgerMenu.

(* ================================================================= *)
(** ** Reveal on scroll (initFadeInAnimation) *)

Module FadeIn.

Definition SHOW : Js.str := Js.lit "show".

(** An entry handed to the observer's callback: the observed element it
    is about, by its position among the observed elements, and whether
    the element intersects the viewport. *)
Record entry := mkEntry {
  target : nat;
  isIntersecting : bool
}.

(** The class lists of the observed elements, in document order. *)
Definition page := list ClassList.t.

Fixpoint reveal (i : nat) (els : page) : page :=
  match els, i with
  | [], _ => []
  | cl :: rest, O => ClassList.add cl SHOW :: rest
  | cl :: rest, S i' => cl :: reveal i' rest
  end.

(** The callback of the [IntersectionObserver]. *)
Definition callback (entries : list entry) (els : page) : page :=
  fold_left
    (fun q e => if isIntersecting e then reveal (target e) q else q)
    entries els.

(** Some entry reports element [i] as intersecting. *)
Definition reported (entries : list entry) (i : nat) : bool :=
  existsb (fun e => Nat.eqb (target e) i && isIntersecting e) entries.

End FadeIn.

(* ================================================================= *)
(** ** Listeners of the project modal (initProjectModal) *)

Module ModalEvents.

Definition ESCAPE : Js.str := Js.lit "Escape".

(** The click listener of the project grid: [detailButton] is what
    [e.target.closest('.project-detail-btn')] finds, [None] for a click
    outside every detail trigger. *)
Definition on_grid_click (detailButton : option ProjectModal.dataset)
  : Eff.M ProjectModal.page unit :=
  match detailButton with
  | Some d => ProjectModal.openModal d
  | None => Eff.ret tt
  end.

(** The click listener of the window: it closes when the click landed on
    the dialog element itself, its backdrop. *)
Definition on_window_click (target_is_modal : bool) (p : ProjectModal.page)
  : ProjectModal.page :=
  if target_is_modal then ProjectModal.closeModal p else p.

(** The keydown listener of the window. *)
Definition on_keydown (key : Js.str) (p : ProjectModal.page) : ProjectModal.page :=
  if Js.eqb key ESCAPE && Js.eqb (ProjectModal.modal_display p) ProjectModal.BLOCK
  then ProjectModal.closeModal p
  else p.

(** What [openModal] copies from the trigger, the [href] of the live-demo
    link apart. *)
Definition content (p : ProjectModal.page)
  : option Js.str * option Js.str * option ProjectModal.link * option Js.str * Js.str :=
  (ProjectModal.modalTitle p, ProjectModal.modalDesc p,
   ProjectModal.modalGithubLink p,
   option_map ProjectModal.display (ProjectModal.modalLiveLink p),
   ProjectModal.modal_display p).

Definition live_href (p : ProjectModal.page) : option Js.str :=
  match ProjectModal.modalLiveLink p with
  | None => None
  | Some l => ProjectModal.href l
  end.

(** All four elements [openModal] writes to are in the document. *)
Definition complete (p : ProjectModal.page) : Prop :=
  ProjectModal.modalTitle p <> None /\ ProjectModal.modalDesc p <> None /\
  ProjectModal.modalGithubLink p <> None /\ ProjectModal.modalLiveLink p <> None.

End ModalEvents.

(* ================================================================= *)
(** ** Observations on the typewriter, the filter bar and the form *)

Module TypewriterClock.

(** The delay the invocation number [k+1] of [typeWriter] scheduled its
    successor with. *)
Definition delay_of (text html : Js.str) (k : nat) : Z :=
  match Typewriter.after text html k with
  | None => 0
  | Some w => fold_right Z.add 0 (map snd (Typewriter.pending w))
  end.

(** The time at which invocation number [k+1] runs, counted from the
    initial call, when every timer fires as soon as it is due. *)
Fixpoint time_of (text html : Js.str) (k : nat) : Z :=
  match k with
  | O => 0
  | S k' => time_of text html k' + delay_of text html k'
  end.

End TypewriterClock.

Module FilterBar.

Definition is_active (e : ProjectFilter.element) : bool :=
  ClassList.contains (ProjectFilter.classList e) CLASSES.active.

Definition active_count (els : list ProjectFilter.element) : nat :=
  List.length (filter is_active els).

(** The first card, in document order, that has no category. *)
Fixpoint first_without_category (cs : list ProjectFilter.card) : option nat :=
  match cs with
  | [] => None
  | c :: rest =>
      match ProjectFilter.category c with
      | None => Some O
      | Some _ => option_map S (first_without_category rest)
      end
  end.

(** A card as the listener leaves it when it is to be shown ([v] true) or
    hidden. *)
Definition set_shown (v : bool) (c : ProjectFilter.card) : ProjectFilter.card :=
  ProjectFilter.mkCard
    (ClassList.toggle_force (ProjectFilter.card_classList c) CLASSES.hide (negb v))
    (ProjectFilter.category c).

End FilterBar.

Module FormErrors.

(** What an entry of the error list contributes to the joined text: its
    [message] when that is a string, nothing when the entry is an object
    without a [message] or with a null one. *)
Definition entry_text (e : Json.value) (s : Js.str) : Prop :=
  exists props,
    e = Json.Obj props /\
    (Json.lookup (Js.lit "message") props = Some (Json.Str s) \/
     (Json.lookup (Js.lit "message") props = None /\ s = []) \/
     (Json.lookup (Js.lit "message") props = Some Json.Null /\ s = [])).

(** The request did not end in a success response. *)
Definition failed (fr : ContactForm.fetch_result) : bool :=
  match fr with
  | ContactForm.Rejected => true
  | ContactForm.Resolved r => negb (ContactForm.ok r)
  end.

(** The time a submission takes from the submit event to its last turn. *)
Definition duration (fr : ContactForm.fetch_result) (latency reading : Z) : Z :=
  match fr with
  | ContactForm.Rejected => latency
  | ContactForm.Resolved r => if ContactForm.ok r then latency else latency + reading
  end.

End FormErrors.

(* ================================================================= *)
(** * Properties *)

(** ** Strings *)

Lemma js_eqb_eq (a b : Js.str) : Js.eqb a b = true <-> a = b.
Proof.
  revert b; induction a as [|c a IH]; intros [|d b]; simpl; split;
    try congruence; try reflexivity.
  - intros H. apply andb_true_iff in H as [Hc Hab].
    apply N.eqb_eq in Hc. apply IH in Hab. congruence.
  - intros H. injection H as -> ->. apply andb_true_iff. split.
    + apply N.eqb_refl.
    + now apply IH.
Qed.

Lemma js_eqb_refl (a : Js.str) : Js.eqb a a = true.
Proof. now apply js_eqb_eq. Qed.

Lemma js_eqb_neq (a b : Js.str) : Js.eqb a b = false <-> a <> b.
Proof.
  split.
  - intros H E. apply js_eqb_eq in E. congruence.
  - intros H. destruct (Js.eqb a b) eqn:E; [|reflexivity].
    apply js_eqb_eq in E. contradiction.
Qed.

Lemma js_length_nonneg (s : Js.str) : 0 <= Js.length s.
Proof. unfold Js.length. lia. Qed.

(** On positions inside the string, [substring(0, k)] is the prefix of
    length [k]. *)
Lemma js_substring_prefix (s : Js.str) (k : Z) :
  0 <= k <= Js.length s ->
  Js.substring s 0 k = firstn (Z.to_nat k) s.
Proof.
  intros H. unfold Js.substring, Js.clamp.
  replace (Z.max 0 (Z.min 0 (Js.length s))) with 0 by lia.
  replace (Z.max 0 (Z.min k (Js.length s))) with k by lia.
  replace (Z.min 0 k) with 0 by lia.
  replace (Z.max 0 k) with k by lia.
  simpl. now rewrite Z.sub_0_r.
Qed.

Lemma js_starts_with_app (s p : Js.str) :
  Js.starts_with s p = true <-> exists post, s = p ++ post.
Proof.
  revert s; induction p as [|c p IH]; intros s; simpl.
  - split; [intros _; now exists s | now destruct s].
  - destruct s as [|d s].
    + split; [discriminate | intros [post H]; discriminate].
    + split.
      * intros H. apply andb_true_iff in H as [Hc Hp].
        apply N.eqb_eq in Hc. apply IH in Hp as [post ->].
        exists post. now subst.
      * intros [post H]. injection H as -> ->.
        apply andb_true_iff. split; [apply N.eqb_refl|].
        apply IH. now exists post.
Qed.

(** [includes] is the search for a contiguous occurrence. *)
Lemma js_includes_occurs (s p : Js.str) :
  Js.includes s p = true <-> exists pre post, s = pre ++ p ++ post.
Proof.
  induction s as [|d s IH].
  - assert (E : Js.includes [] p = Js.starts_with [] p)
      by (destruct p; reflexivity).
    rewrite E, js_starts_with_app. split.
    + intros [post H]. now exists [], post.
    + intros [pre [post H]]. destruct pre; [now exists post|discriminate].
  - assert (E : Js.includes (d :: s) p =
                Js.starts_with (d :: s) p || Js.includes s p)
      by (destruct p; reflexivity).
    rewrite E, orb_true_iff, js_starts_with_app, IH. split.
    + intros [[post H] | [pre [post H]]].
      * now exists [], post.
      * exists (d :: pre), post. simpl. now f_equal.
    + intros [pre [post H]]. destruct pre as [|e pre].
      * left. now exists post.
      * right. injection H as -> ->. now exists pre, post.
Qed.

(** ** Typewriter effect *)

Section TypewriterFacts.

Import Typewriter.

Variable txt : Js.str.

Lemma typeWriter_typing (w : world) :
  isDeleting w = false -> 0 <= index w < Js.length txt ->
  typeWriter txt w =
    mkWorld (index w + 1) false (firstn (Z.to_nat (index w)) txt)
            (pending w ++ [(TypeWriterCb, TIMING.typingSpeed)]).
Proof.
  intros Hd Hi. unfold typeWriter, setTimeout. simpl.
  rewrite Hd. simpl.
  destruct (Z.ltb_spec (index w) (Js.length txt)); [|lia].
  simpl. rewrite js_substring_prefix by lia. reflexivity.
Qed.

Lemma typeWriter_full (w : world) :
  isDeleting w = false -> index w = Js.length txt ->
  typeWriter txt w =
    mkWorld (index w) true txt
            (pending w ++ [(TypeWriterCb, TIMING.typingPause)]).
Proof.
  intros Hd Hi. unfold typeWriter, setTimeout. simpl.
  rewrite Hd. simpl.
  destruct (Z.ltb_spec (index w) (Js.length txt)); [lia|].
  simpl. rewrite js_substring_prefix by (pose proof (js_length_nonneg txt); lia).
  rewrite Hi. unfold Js.length. rewrite Nat2Z.id, firstn_all. reflexivity.
Qed.

Lemma typeWriter_deleting (w : world) :
  isDeleting w = true -> 0 < index w <= Js.length txt ->
  typeWriter txt w =
    mkWorld (index w - 1) true (firstn (Z.to_nat (index w)) txt)
            (pending w ++ [(TypeWriterCb, TIMING.deletingSpeed)]).
Proof.
  intros Hd Hi. unfold typeWriter, setTimeout. simpl.
  rewrite Hd. simpl.
  destruct (Z.gtb_spec (index w) 0); [|lia].
  rewrite js_substring_prefix by lia. reflexivity.
Qed.

Lemma typeWriter_empty (w : world) :
  isDeleting w = true -> index w = 0 ->
  typeWriter txt w =
    mkWorld 0 false [] (pending w ++ [(TypeWriterCb, TIMING.typingPause)]).
Proof.
  intros Hd Hi. unfold typeWriter, setTimeout. simpl.
  rewrite Hd, Hi. simpl.
  rewrite js_substring_prefix by (pose proof (js_length_nonneg txt); lia).
  reflexivity.
Qed.

(** A call overwrites the element whatever it held. *)
Lemma typeWriter_overwrites (i : Z) (d : bool) (h1 h2 : Js.str) (q : list (callback * Z)) :
  typeWriter txt (mkWorld i d h1 q) = typeWriter txt (mkWorld i d h2 q).
Proof. reflexivity. Qed.

Lemma typeWriter_keeps_range (w : world) :
  index_in_range txt w -> index_in_range txt (typeWriter txt w).
Proof.
  unfold index_in_range, typeWriter, setTimeout. intros H. simpl.
  destruct (isDeleting w); simpl.
  - destruct (Z.gtb_spec (index w) 0); simpl; lia.
  - destruct (Z.ltb_spec (index w) (Js.length txt)); simpl; lia.
Qed.

Lemma typeWriter_schedules_one (w : world) :
  exists d, pending (typeWriter txt w) = pending w ++ [(TypeWriterCb, d)].
Proof.
  unfold typeWriter, setTimeout. simpl.
  destruct (negb (isDeleting w) && (index w <? Js.length txt)); simpl;
    [eauto|].
  destruct (isDeleting w && (index w >? 0)); simpl; eauto.
Qed.

Lemma fire_single (w : world) (d : Z) :
  pending w = [(TypeWriterCb, d)] ->
  fire txt w = Some (typeWriter txt (mkWorld (index w) (isDeleting w) (innerHTML w) [])).
Proof. intros H. unfold fire. now rewrite H. Qed.

(** Closed form of the world during the typing phase: after the initial
    call and [k] firings, for [k] up to the length of the text. *)
Lemma after_typing (html : Js.str) (k : nat) :
  (k <= List.length txt)%nat ->
  after txt html k =
    Some (if (k <? List.length txt)%nat
          then mkWorld (Z.of_nat k + 1) false (firstn k txt)
                       [(TypeWriterCb, TIMING.typingSpeed)]
          else mkWorld (Z.of_nat k) true (firstn k txt)
                       [(TypeWriterCb, TIMING.typingPause)]).
Proof.
  induction k as [|k IH]; intros Hk.
  - cbn [after]. unfold initTypingEffect, start.
    destruct (Nat.ltb_spec 0 (List.length txt)).
    + rewrite typeWriter_typing; cbn [index isDeleting innerHTML pending];
        [reflexivity | reflexivity | unfold Js.length; lia].
    + rewrite typeWriter_full; cbn [index isDeleting innerHTML pending];
        [ | reflexivity | unfold Js.length; lia].
      destruct txt; [reflexivity | simpl in *; lia].
  - cbn [after]. rewrite IH by lia.
    destruct (Nat.ltb_spec k (List.length txt)); [|lia].
    erewrite fire_single by reflexivity.
    cbn [index isDeleting innerHTML pending].
    destruct (Nat.ltb_spec (S k) (List.length txt)).
    + rewrite typeWriter_typing; cbn [index isDeleting innerHTML pending];
        [ | reflexivity | unfold Js.length; lia].
      replace (Z.to_nat (Z.of_nat k + 1)) with (S k) by lia.
      replace (Z.of_nat (S k)) with (Z.of_nat k + 1) by lia.
      reflexivity.
    + rewrite typeWriter_full; cbn [index isDeleting innerHTML pending];
        [ | reflexivity | unfold Js.length; lia].
      replace (S k) with (List.length txt) by lia.
      rewrite firstn_all.
      replace (Z.of_nat k + 1) with (Z.of_nat (List.length txt)) by lia.
      reflexivity.
Qed.

(** Closed form during the deleting phase: [j] firings after the pause
    that ends the typing phase. *)
Lemma after_deleting (html : Js.str) (j : nat) :
  (j <= List.length txt)%nat ->
  after txt html (List.length txt + 1 + j) =
    Some (if (j <? List.length txt)%nat
          then mkWorld (Z.of_nat (List.length txt - j) - 1) true
                       (firstn (List.length txt - j) txt)
                       [(TypeWriterCb, TIMING.deletingSpeed)]
          else mkWorld 0 false []
                       [(TypeWriterCb, TIMING.typingPause)]).
Proof.
  induction j as [|j IH]; intros Hj.
  - replace (List.length txt + 1 + 0)%nat with (S (List.length txt)) by lia.
    cbn [after]. rewrite after_typing by lia.
    rewrite Nat.ltb_irrefl.
    erewrite fire_single by reflexivity.
    cbn [index isDeleting innerHTML pending].
    destruct (Nat.ltb_spec 0 (List.length txt)).
    + rewrite typeWriter_deleting; cbn [index isDeleting innerHTML pending];
        [ | reflexivity | unfold Js.length; lia].
      rewrite Nat2Z.id, Nat.sub_0_r. reflexivity.
    + rewrite typeWriter_empty; cbn [index isDeleting innerHTML pending];
        [reflexivity | reflexivity | lia].
  - replace (List.length txt + 1 + S j)%nat with (S (List.length txt + 1 + j)) by lia.
    cbn [after]. rewrite IH by lia.
    destruct (Nat.ltb_spec j (List.length txt)); [|lia].
    erewrite fire_single by reflexivity.
    cbn [index isDeleting innerHTML pending].
    destruct (Nat.ltb_spec (S j) (List.length txt)).
    + rewrite typeWriter_deleting; cbn [index isDeleting innerHTML pending];
        [ | reflexivity | unfold Js.length; lia].
      replace (Z.to_nat (Z.of_nat (List.length txt - j) - 1))
        with (List.length txt - S j)%nat by lia.
      replace (Z.of_nat (List.length txt - j) - 1)
        with (Z.of_nat (List.length txt - S j)) by lia.
      reflexivity.
    + rewrite typeWriter_empty; cbn [index isDeleting innerHTML pending];
        [reflexivity | reflexivity | lia].
Qed.

Lemma after_period_0 (html : Js.str) :
  after txt html (period txt) = after txt html 0.
Proof.
  unfold period.
  replace (2 * List.length txt + 2)%nat
    with (S (List.length txt + 1 + List.length txt)) by lia.
  simpl after. rewrite after_deleting by lia.
  rewrite Nat.ltb_irrefl.
  erewrite fire_single by reflexivity. reflexivity.
Qed.

Lemma after_periodic (html : Js.str) (k : nat) :
  after txt html (k + period txt) = after txt html k.
Proof.
  induction k as [|k IH].
  - apply after_period_0.
  - simpl. now rewrite IH.
Qed.

Lemma after_some_in_range (html : Js.str) (k : nat) :
  exists w d, after txt html k = Some w /\
              pending w = [(TypeWriterCb, d)] /\
              index_in_range txt w.
Proof.
  induction k as [|k [w [d [E [Hp Hr]]]]].
  - cbn [after initTypingEffect].
    destruct (typeWriter_schedules_one (start html)) as [d Hd].
    exists (typeWriter txt (start html)), d.
    split; [reflexivity | split; [exact Hd|]].
    apply typeWriter_keeps_range. unfold index_in_range, start. simpl.
    pose proof (js_length_nonneg txt). lia.
  - cbn [after]. rewrite E. erewrite fire_single by exact Hp.
    set (w0 := mkWorld (index w) (isDeleting w) (innerHTML w) []).
    destruct (typeWriter_schedules_one w0) as [d' Hd'].
    exists (typeWriter txt w0), d'.
    split; [reflexivity | split; [exact Hd'|]].
    apply typeWriter_keeps_range. exact Hr.
Qed.

(** C4.  Typing phase: starting from any content of the target element,
    the first [len + 1] invocations of [typeWriter] (the direct call and
    the [len] timer firings after it) all find the phase flag "not
    deleting", and what they write into the element is, in order, the
    prefix of the text of length 0, 1, ..., [len]: one prefix per
    invocation.  Each of them schedules exactly one next invocation, at the
    typing speed for the first [len] and at the pause delay for the last,
    and the invocation after these finds the flag "deleting". *)
Theorem typing_phase_shows_prefixes (html : Js.str) :
  map (shown txt html) (seq 0 (S (List.length txt))) =
    map (fun k => Some (firstn k txt)) (seq 0 (S (List.length txt)))
  /\ map (deleting_on_entry txt html) (seq 0 (S (List.length txt))) =
       map (fun _ => Some false) (seq 0 (S (List.length txt)))
  /\ map (delay_scheduled txt html) (seq 0 (S (List.length txt))) =
       map (fun k => Some [if (k <? List.length txt)%nat
                           then TIMING.typingSpeed else TIMING.typingPause])
           (seq 0 (S (List.length txt)))
  /\ deleting_on_entry txt html (S (List.length txt)) = Some true.
Proof.
  repeat split.
  - apply map_ext_in. intros k Hk. apply in_seq in Hk.
    unfold shown. rewrite after_typing by lia.
    now destruct (k <? List.length txt)%nat.
  - apply map_ext_in. intros k Hk. apply in_seq in Hk.
    destruct k as [|k]; [reflexivity|].
    unfold deleting_on_entry. rewrite after_typing by lia.
    destruct (Nat.ltb_spec k (List.length txt)); [reflexivity | lia].
  - apply map_ext_in. intros k Hk. apply in_seq in Hk.
    unfold delay_scheduled. rewrite after_typing by lia.
    now destruct (k <? List.length txt)%nat.
  - unfold deleting_on_entry. rewrite after_typing by lia.
    now rewrite Nat.ltb_irrefl.
Qed.


(** C9.  The index stays within [0 .. len]: the bound holds when
    [initTypingEffect] is about to make its first call, every invocation of
    [typeWriter] (typing, deleting or pause) preserves it, and so it holds
    in every world reached after the initial call and any number of timer
    firings. *)
Theorem typewriter_index_in_range (html : Js.str) :
  index_in_range txt (start html)
  /\ (forall w, index_in_range txt w -> index_in_range txt (typeWriter txt w))
  /\ (forall k, exists w, after txt html k = Some w /\ index_in_range txt w).
Proof.
  split; [|split].
  - unfold index_in_range, start. simpl.
    pose proof (js_length_nonneg txt). lia.
  - apply typeWriter_keeps_range.
  - intros k. destruct (after_some_in_range html k) as [w [d [E [_ Hr]]]].
    now exists w.
Qed.

End TypewriterFacts.

(** The first eight invocations on the text "ab", with their delays. *)
Example typewriter_trace_ab :
  map (Typewriter.shown (Js.lit "ab") []) (seq 0 8) =
    map Some [[]; Js.lit "a"; Js.lit "ab"; Js.lit "ab"; Js.lit "a"; []; [];
              Js.lit "a"]
  /\ map (Typewriter.delay_scheduled (Js.lit "ab") []) (seq 0 8) =
       map (fun d => Some [d]) [150; 150; 1200; 100; 100; 1200; 150; 150].
Proof. split; reflexivity. Qed.


Lemma typewriter_index_in_range_witness :
  Typewriter.index_in_range Typewriter.text
    (Typewriter.typeWriter Typewriter.text
       (Typewriter.mkWorld 18 true [] [])).
Proof.
  apply (proj1 (proj2 (typewriter_index_in_range Typewriter.text []))).
  unfold Typewriter.index_in_range. vm_compute. split; discriminate.
Defined.

(** ** Class lists *)

Lemma classlist_contains_app (cl1 cl2 : ClassList.t) (c : Js.str) :
  ClassList.contains (cl1 ++ cl2) c =
  ClassList.contains cl1 c || ClassList.contains cl2 c.
Proof. unfold ClassList.contains. apply existsb_app. Qed.

Lemma classlist_contains_remove (cl : ClassList.t) (c : Js.str) :
  ClassList.contains (ClassList.remove cl c) c = false.
Proof.
  unfold ClassList.contains, ClassList.remove.
  induction cl as [|d cl IH]; [reflexivity|].
  simpl. destruct (Js.eqb c d) eqn:E; simpl; [exact IH|].
  now rewrite E.
Qed.

Lemma classlist_contains_add (cl : ClassList.t) (c : Js.str) :
  ClassList.contains (ClassList.add cl c) c = true.
Proof.
  unfold ClassList.add.
  destruct (ClassList.contains cl c) eqn:E; [exact E|].
  rewrite classlist_contains_app. unfold ClassList.contains at 2. simpl.
  rewrite js_eqb_refl. apply orb_true_r.
Qed.

Lemma classlist_contains_toggle (cl : ClassList.t) (c : Js.str) :
  ClassList.contains (ClassList.toggle cl c) c = negb (ClassList.contains cl c).
Proof.
  unfold ClassList.toggle.
  destruct (ClassList.contains cl c) eqn:E; simpl.
  - apply classlist_contains_remove.
  - rewrite classlist_contains_app, E. unfold ClassList.contains. simpl.
    now rewrite js_eqb_refl.
Qed.

Lemma classlist_contains_toggle_force (cl : ClassList.t) (c : Js.str) (force : bool) :
  ClassList.contains (ClassList.toggle_force cl c force) c = force.
Proof.
  destruct force; simpl.
  - apply classlist_contains_add.
  - apply classlist_contains_remove.
Qed.

(** ** Theme toggle *)

Lemma theme_click_flips (p : ThemeToggle.page) :
  ThemeToggle.is_dark (ThemeToggle.on_click p) = negb (ThemeToggle.is_dark p).
Proof.
  unfold ThemeToggle.is_dark, ThemeToggle.on_click. simpl.
  apply classlist_contains_toggle.
Qed.

Lemma theme_click_consistent (p : ThemeToggle.page) :
  ThemeToggle.consistent (ThemeToggle.on_click p).
Proof.
  unfold ThemeToggle.consistent.
  assert (E : ThemeToggle.textContent (ThemeToggle.on_click p) =
              if ThemeToggle.is_dark (ThemeToggle.on_click p)
              then ThemeToggle.MOON else ThemeToggle.SUN) by reflexivity.
  assert (A : ThemeToggle.aria_label (ThemeToggle.on_click p) =
              Some (if ThemeToggle.is_dark (ThemeToggle.on_click p)
                    then ThemeToggle.TO_LIGHT else ThemeToggle.TO_DARK))
    by reflexivity.
  rewrite E, A.
  destruct (ThemeToggle.is_dark (ThemeToggle.on_click p));
    repeat split; intros; try reflexivity; try discriminate.
Qed.

Lemma theme_clicks_parity (p : ThemeToggle.page) (n : nat) :
  ThemeToggle.is_dark (ThemeToggle.clicks n p) =
  xorb (Nat.odd n) (ThemeToggle.is_dark p).
Proof.
  induction n as [|n IH].
  - simpl. now destruct (ThemeToggle.is_dark p).
  - cbn [ThemeToggle.clicks]. rewrite theme_click_flips, IH, Nat.odd_succ.
    rewrite <- Nat.negb_odd.
    destruct (Nat.odd n), (ThemeToggle.is_dark p); reflexivity.
Qed.

(** C10.  Starting from a body without the dark-mode class: after [n]
    clicks the class is on the body exactly when [n] is odd; after every
    sequence of one or more clicks the icon is the moon exactly when the
    class is present and the sun exactly when it is absent, and the
    aria-label offers the opposite mode; and when the markup's icon and
    label agree with the class to begin with, this holds after every
    sequence, the empty one included. *)
Theorem theme_toggle_consistent (p : ThemeToggle.page) :
  ThemeToggle.is_dark p = false ->
  (forall n, ThemeToggle.is_dark (ThemeToggle.clicks n p) = Nat.odd n)
  /\ (forall n, ThemeToggle.consistent (ThemeToggle.clicks (S n) p))
  /\ (ThemeToggle.consistent p ->
      forall n, ThemeToggle.consistent (ThemeToggle.clicks n p)).
Proof.
  intros Hp. split; [|split].
  - intros n. rewrite theme_clicks_parity, Hp. apply xorb_false_r.
  - intros n. cbn [ThemeToggle.clicks]. apply theme_click_consistent.
  - intros Hc [|n]; [exact Hc|].
    cbn [ThemeToggle.clicks]. apply theme_click_consistent.
Qed.

Lemma theme_toggle_consistent_witness :
  ThemeToggle.is_dark
    (ThemeToggle.clicks 3
       (ThemeToggle.mkPage [Js.lit "home"] ThemeToggle.SUN None)) = true
  /\ ThemeToggle.textContent
       (ThemeToggle.clicks 3
          (ThemeToggle.mkPage [Js.lit "home"] ThemeToggle.SUN None))
     = ThemeToggle.MOON.
Proof.
  destruct (theme_toggle_consistent
              (ThemeToggle.mkPage [Js.lit "home"] ThemeToggle.SUN None)
              eq_refl) as [Hodd [Hcons _]].
  split.
  - exact (Hodd 3%nat).
  - apply (proj1 (Hcons 2%nat)). exact (Hodd 3%nat).
Defined.

(** ** Project filter *)

Section ProjectFilterFacts.

Import ProjectFilter.

Lemma isVisible_spec (f : Js.str) (c : card) :
  f = ALL \/ category c <> None ->
  exists v, isVisible (Some f) c = inr v /\
    (v = true <->
     f = ALL \/
     exists cat pre post, category c = Some cat /\ cat = pre ++ f ++ post).
Proof.
  intros H. unfold isVisible, is_all, search_string.
  destruct (Js.eqb f ALL) eqn:E.
  - apply js_eqb_eq in E. exists true. split; [reflexivity|].
    split; [now left | reflexivity].
  - apply js_eqb_neq in E. destruct H as [H | H]; [contradiction|].
    destruct (category c) as [cat|]; [|contradiction].
    exists (Js.includes cat f). split; [reflexivity|].
    rewrite js_includes_occurs. split.
    + intros [pre [post Hc]]. right. now exists cat, pre, post.
    + intros [Hall | [cat' [pre [post [Hc Hs]]]]]; [contradiction|].
      injection Hc as <-. now exists pre, post.
Qed.

Lemma filter_cards_spec (f : Js.str) (cs : list card) :
  f = ALL \/ Forall (fun c => category c <> None) cs ->
  exists cs', filter_cards (Some f) cs = (cs', None) /\
              Forall2 (shown_as f) cs cs'.
Proof.
  induction cs as [|c cs IH]; intros H.
  - exists []. split; [reflexivity | constructor].
  - assert (Hc : f = ALL \/ category c <> None).
    { destruct H as [H | H]; [now left | right; now inversion H]. }
    assert (Hcs : f = ALL \/ Forall (fun c => category c <> None) cs).
    { destruct H as [H | H]; [now left | right; now inversion H]. }
    destruct (isVisible_spec f c Hc) as [v [Ev Hv]].
    destruct (IH Hcs) as [cs' [Ecs Hcs']].
    cbn [filter_cards]. rewrite Ev, Ecs.
    eexists. split; [reflexivity|].
    constructor; [|exact Hcs'].
    split; [reflexivity|].
    unfold visible. cbn [card_classList].
    rewrite classlist_contains_toggle_force, negb_involutive. exact Hv.
Qed.

Lemma activate_target_cards (t : target) (p : page) :
  cards (activate_target t p) = cards p.
Proof. now destruct t. Qed.

(** C2, as the code has it.  A click on a filter button whose
    [data-filter] is [f], on a page whose cards all carry a category (or
    with [f] the sentinel), completes without raising, keeps every card's
    category, and leaves a card shown if and only if [f] is "all" or [f]
    occurs in the card's category text as a contiguous run of characters;
    with "all" every card is shown whatever its category. *)
Theorem filter_click_shows_matches (p : page) (t : target) (tgt : element) (f : Js.str) :
  element_at p t = Some tgt ->
  ClassList.contains (classList tgt) FILTER_BTN = true ->
  data_filter tgt = Some f ->
  f = ALL \/ Forall (fun c => category c <> None) (cards p) ->
  exists p',
    on_click t p = Eff.Ok tt p' /\
    Forall2 (shown_as f) (cards p) (cards p') /\
    (f = ALL -> Forall (fun c' => visible c' = true) (cards p')).
Proof.
  intros Ht Hbtn Hf Hcats.
  unfold on_click. rewrite Ht, Hbtn, Hf. cbn [negb].
  rewrite activate_target_cards. cbn [cards].
  destruct (filter_cards_spec f (cards p) Hcats) as [cs' [E H2]].
  rewrite E. eexists. split; [reflexivity|].
  cbn [cards]. split; [exact H2|].
  intros Hall. clear E. induction H2 as [|c c' cs cs'' [_ Hv] _ IH];
    constructor.
  - apply Hv. now left.
  - apply IH. destruct Hcats as [Ha | Hc]; [now left | right; now inversion Hc].
Qed.

End ProjectFilterFacts.

Lemma filter_click_shows_matches_witness :
  exists p',
    ProjectFilter.on_click (ProjectFilter.Child 1) ProjectFilter.page_two_cards
    = Eff.Ok tt p' /\
    map ProjectFilter.visible (ProjectFilter.cards p') = [true; false].
Proof.
  destruct (filter_click_shows_matches
              ProjectFilter.page_two_cards (ProjectFilter.Child 1)
              (ProjectFilter.mkElement [Js.lit "filter-btn"] (Some (Js.lit "web")))
              (Js.lit "web") eq_refl eq_refl eq_refl)
    as [p' [E _]].
  - right. repeat constructor; discriminate.
  - exists p'. split; [exact E|].
    vm_compute in E. injection E as <-. reflexivity.
Defined.

(** C2, as the specification words it, fails: the button "web" shows a
    card whose only category tag is "webapp", which the tag set
    {"webapp"} does not contain. *)
Lemma filter_tag_set_counterexample :
  Eff.raised (ProjectFilter.on_click (ProjectFilter.Child 0) ProjectFilter.page_webapp)
    = None /\
  map ProjectFilter.visible
      (ProjectFilter.cards
         (Eff.state_of
            (ProjectFilter.on_click (ProjectFilter.Child 0) ProjectFilter.page_webapp)))
    = [true] /\
  ProjectFilter.tag_set (Js.lit "webapp") = [Js.lit "webapp"] /\
  ProjectFilter.spec_visible (Js.lit "web") (Js.lit "webapp") = false.
Proof. vm_compute. repeat split. Qed.

(** ** Project modal *)

Section ProjectModalFacts.

Import ProjectModal.

Lemma js_trim_nil : Js.trim [] = [].
Proof. reflexivity. Qed.

Lemma has_live_spec (v : option Js.str) :
  has_live v = true <-> exists s, v = Some s /\ Js.trim s <> [].
Proof.
  unfold has_live. destruct v as [s|].
  - rewrite andb_true_iff, !negb_true_iff, !js_eqb_neq. split.
    + intros [_ H]. now exists s.
    + intros [s' [E H]]. injection E as <-. split; [|exact H].
      intros ->. now apply H.
  - split; [discriminate | intros [s [E _]]; discriminate].
Qed.

(** C8.  On a page that has the four elements of the dialog, opening it
    from a detail trigger succeeds and makes the dialog visible; the
    live-demo action is hidden when the trigger's [live] field is absent,
    empty, or white space only, and otherwise it is shown and its [href]
    is the field's text. *)
Theorem modal_live_link_visibility
    (p : page) (d : dataset) (t0 d0 : Js.str) (gh lk : link) :
  modalTitle p = Some t0 -> modalDesc p = Some d0 ->
  modalGithubLink p = Some gh -> modalLiveLink p = Some lk ->
  exists p' l,
    openModal d p = Eff.Ok tt p' /\
    modalLiveLink p' = Some l /\
    modal_display p' = BLOCK /\
    (live d = None \/ (exists s, live d = Some s /\ Js.trim s = []) ->
     display l = NONE) /\
    (forall s, live d = Some s -> Js.trim s <> [] ->
     display l = INLINE_BLOCK /\ href l = Some s).
Proof.
  intros Ht Hd Hg Hl. unfold openModal.
  rewrite Ht. cbn [modalDesc modalTitle modalGithubLink modalLiveLink modal_display].
  rewrite Hd, Hg, Hl.
  destruct (has_live (live d)) eqn:E.
  - apply has_live_spec in E as [s [Es Hs]].
    eexists. eexists. split; [reflexivity|].
    cbn [modalLiveLink modal_display display href].
    split; [reflexivity | split; [reflexivity | split]].
    + intros [Hn | [s' [Es' Hs']]]; congruence.
    + intros s' Es' _. rewrite Es' in *. cbn [display href as_url].
      split; reflexivity.
  - eexists. eexists. split; [reflexivity|].
    cbn [modalLiveLink modal_display display href].
    split; [reflexivity | split; [reflexivity | split]].
    + reflexivity.
    + intros s Es Hs.
      assert (has_live (live d) = true) by (apply has_live_spec; now exists s).
      congruence.
Qed.

End ProjectModalFacts.

Lemma modal_live_link_visibility_witness :
  exists p' l,
    ProjectModal.openModal ProjectModal.trigger_with_live ProjectModal.page_complete
      = Eff.Ok tt p' /\
    ProjectModal.modalLiveLink p' = Some l /\
    ProjectModal.display l = ProjectModal.INLINE_BLOCK /\
    ProjectModal.href l = Some (Js.lit "https://x").
Proof.
  destruct (modal_live_link_visibility
              ProjectModal.page_complete ProjectModal.trigger_with_live
              [] [] (ProjectModal.mkLink None []) (ProjectModal.mkLink None [])
              eq_refl eq_refl eq_refl eq_refl)
    as [p' [l [E [El [_ [_ Hshown]]]]]].
  exists p', l. split; [exact E | split; [exact El|]].
  apply (Hshown (Js.lit "https://x")); [reflexivity|].
  vm_compute. discriminate.
Defined.

(** The other two readings of the example: a trigger without the field
    and one whose field is blank hide the action. *)
Lemma modal_hides_absent_or_blank_live :
  option_map ProjectModal.display
    (ProjectModal.modalLiveLink
       (Eff.state_of (ProjectModal.openModal ProjectModal.trigger_without_live
                        ProjectModal.page_complete)))
    = Some ProjectModal.NONE /\
  option_map ProjectModal.display
    (ProjectModal.modalLiveLink
       (Eff.state_of
          (ProjectModal.openModal
             (ProjectModal.mkDataset None None None (Some (Js.lit "  ")))
             ProjectModal.page_complete)))
    = Some ProjectModal.NONE.
Proof. split; reflexivity. Qed.

(** ** Contact form *)

Section ContactFormFacts.

Import ContactForm.

Lemma on_submit_spec (p : page) (b : button) :
  submitButton p = Some b ->
  on_submit p =
    Eff.Ok AwaitFetch
      (mkPage (Some (mkButton true SENDING)) (fields p) (status_text p)
              (status_color p) (now p) (timers p)).
Proof.
  intros H. unfold on_submit, Eff.bind, set_button. rewrite H. reflexivity.
Qed.

Lemma after_fetch_rejected (q : page) (b : button) :
  submitButton q = Some b ->
  after_fetch Rejected q = Eff.Ok Settled (finished MSG_CONNECTION RED q).
Proof.
  intros H. unfold after_fetch, catch_block, finally_block, Eff.bind,
    set_status, set_button, setTimeout, Eff.modify.
  cbn [submitButton]. rewrite H. reflexivity.
Qed.

Lemma after_fetch_success (q : page) (b : button) (r : response) :
  submitButton q = Some b -> ok r = true ->
  after_fetch (Resolved r) q =
    Eff.Ok Settled
      (finished MSG_SUCCESS GREEN
         (mkPage (submitButton q) (map reset_field (fields q)) (status_text q)
                 (status_color q) (now q) (timers q))).
Proof.
  intros H Hok. unfold after_fetch. rewrite Hok.
  unfold form_reset, finally_block, Eff.bind, set_status, set_button,
    setTimeout, Eff.modify.
  cbn [submitButton]. rewrite H. reflexivity.
Qed.

Lemma after_fetch_failure (q : page) (r : response) :
  ok r = false -> after_fetch (Resolved r) q = Eff.Ok AwaitJson q.
Proof. intros Hok. unfold after_fetch. now rewrite Hok. Qed.

Lemma after_json_spec (q : page) (b : button) (r : response) :
  submitButton q = Some b ->
  after_json r q = Eff.Ok Settled (finished (displayed_on_failure r) RED q).
Proof.
  intros H. unfold after_json, displayed_on_failure, Eff.try_catch, Eff.bind,
    catch_block, finally_block, set_status, set_button, setTimeout,
    Eff.modify, Eff.throw.
  destruct (json r) as [data|]; [destruct (errorMessage data)|];
    cbn [submitButton]; rewrite H; reflexivity.
Qed.

(** Firing timers touches nothing but the status text, and empties it as
    soon as one timer fires. *)
Lemma run_callbacks_frame (l : list (Z * callback)) (q : page) :
  let q' := fold_left (fun q tm => run_callback (snd tm) q) l q in
  submitButton q' = submitButton q /\ fields q' = fields q /\
  status_color q' = status_color q /\ now q' = now q /\
  timers q' = timers q /\
  (l <> [] -> status_text q' = []) /\
  (l = [] -> status_text q' = status_text q).
Proof.
  revert q. induction l as [|[t cb] l IH]; intros q.
  - simpl. repeat split; congruence.
  - cbn [fold_left snd].
    destruct (IH (run_callback cb q)) as [Hb [Hf [Hc [Hn [Ht [Hs1 Hs2]]]]]].
    destruct cb. cbn [run_callback] in *. cbn zeta.
    rewrite Hb, Hf, Hc, Hn, Ht. repeat split; try discriminate.
    intros _. destruct l as [|x l'].
    + now rewrite Hs2.
    + apply Hs1. discriminate.
Qed.

Lemma insert_by_due_length (t : Z * callback) (l : list (Z * callback)) :
  List.length (insert_by_due t l) = S (List.length l).
Proof.
  induction l as [|u l IH]; [reflexivity|].
  simpl. destruct (fst t <? fst u); simpl; congruence.
Qed.

Lemma sort_by_due_length (l : list (Z * callback)) :
  List.length (sort_by_due l) = List.length l.
Proof.
  unfold sort_by_due.
  assert (G : forall acc, List.length (fold_left (fun acc t => insert_by_due t acc) l acc)
                          = (List.length l + List.length acc)%nat).
  { induction l as [|t l IH]; intros acc; [reflexivity|].
    cbn [fold_left]. rewrite IH, insert_by_due_length. simpl. lia. }
  rewrite G. simpl. lia.
Qed.

Lemma elapse_frame (dt : Z) (p : page) :
  submitButton (elapse dt p) = submitButton p /\
  fields (elapse dt p) = fields p /\
  now (elapse dt p) = now p + dt /\
  (timers p = [] -> timers (elapse dt p) = []).
Proof.
  unfold elapse.
  match goal with
  | |- context [fold_left ?f ?l ?q] =>
      destruct (run_callbacks_frame l q) as [Hb [Hf [_ [Hn [Ht _]]]]]
  end.
  cbn zeta in *. rewrite Hb, Hf, Hn, Ht. cbn [submitButton fields now timers].
  repeat split. intros ->. reflexivity.
Qed.

(** A timer that is due empties the status text. *)
Lemma elapse_clears (dt : Z) (p : page) (t : Z) (cb : callback) :
  In (t, cb) (timers p) -> t <= now p + dt ->
  status_text (elapse dt p) = [].
Proof.
  intros Hin Hdue. unfold elapse.
  match goal with
  | |- context [fold_left ?f ?l ?q] =>
      destruct (run_callbacks_frame l q) as [_ [_ [_ [_ [_ [Hs _]]]]]]
  end.
  apply Hs. intros E. apply (f_equal (@List.length _)) in E.
  rewrite sort_by_due_length in E.
  assert (Hf : In (t, cb) (filter (fun tm => fst tm <=? now p + dt) (timers p))).
  { apply filter_In. split; [exact Hin|]. simpl. now apply Z.leb_le. }
  destruct (filter (fun tm => fst tm <=? now p + dt) (timers p));
    [contradiction | discriminate].
Qed.

(** While no timer is due the status text stays. *)
Lemma elapse_idle (dt : Z) (p : page) :
  (forall tm, In tm (timers p) -> now p + dt < fst tm) ->
  status_text (elapse dt p) = status_text p.
Proof.
  intros Hlate. unfold elapse.
  assert (E : filter (fun tm => fst tm <=? now p + dt) (timers p) = []).
  { induction (timers p) as [|tm l IH]; [reflexivity|].
    simpl. destruct (Z.leb_spec (fst tm) (now p + dt)) as [Hle|_].
    - specialize (Hlate tm (or_introl eq_refl)). lia.
    - apply IH. intros tm' Hin. apply Hlate. now right. }
  rewrite E. reflexivity.
Qed.

(** Every submission on a form with a submit button settles, and settles
    in the [finally] block. *)
Lemma submission_settles (p : page) (b : button) (fr : fetch_result) (latency reading : Z) :
  submitButton p = Some b ->
  exists q color,
    submission fr latency reading p =
      Eff.Ok Settled (finished (displayed fr) color q) /\
    (timers p = [] -> timers q = []) /\
    map defaultValue (fields q) = map defaultValue (fields p) /\
    match fr with
    | Rejected => color = RED /\ map value (fields q) = map value (fields p)
    | Resolved r =>
        if ok r
        then color = GREEN /\ map value (fields q) = map defaultValue (fields p)
        else color = RED /\ map value (fields q) = map value (fields p)
    end.
Proof.
  intros H. unfold submission. rewrite (on_submit_spec p b H).
  set (p1 := mkPage _ (fields p) _ _ _ _).
  destruct (elapse_frame latency p1) as [Hb1 [Hf1 [_ Ht1]]].
  cbn [submitButton fields timers p1] in Hb1, Hf1, Ht1.
  destruct fr as [|r].
  - rewrite (after_fetch_rejected _ _ Hb1).
    exists (elapse latency p1), RED. rewrite Hf1. repeat split. exact Ht1.
  - unfold displayed. destruct (ok r) eqn:Hok.
    + rewrite (after_fetch_success _ _ r Hb1 Hok).
      eexists. exists GREEN. split; [reflexivity|].
      cbn [timers fields]. rewrite Hf1, !map_map. repeat split. exact Ht1.
    + rewrite (after_fetch_failure _ r Hok).
      destruct (elapse_frame reading (elapse latency p1)) as [Hb2 [Hf2 [_ Ht2]]].
      rewrite Hb1 in Hb2.
      rewrite (after_json_spec _ _ r Hb2).
      exists (elapse reading (elapse latency p1)), RED.
      rewrite Hf2, Hf1. repeat split. intros E. auto.
Qed.

Lemma messages_of_entries (errs : list Json.value) (msgs : list Js.str) :
  Forall2 entry_with_message errs msgs ->
  Json.map_raising (fun err => Json.get err (Js.lit "message")) errs =
    inr (map (fun m => Some (Json.Str m)) msgs).
Proof.
  induction 1 as [|e m errs msgs [props [-> Hm]] _ IH]; [reflexivity|].
  cbn [Json.map_raising Json.get]. rewrite Hm, IH. reflexivity.
Qed.

Lemma join_of_strings (sep : Js.str) (msgs : list Js.str) :
  Json.join sep (map (fun m => Some (Json.Str m)) msgs) = inr (Js.join sep msgs).
Proof.
  unfold Json.join.
  assert (E : Json.element_strings (map (fun m => Some (Json.Str m)) msgs) = inr msgs).
  { induction msgs as [|m msgs IH]; [reflexivity|].
    cbn [map Json.element_strings Json.element_string Json.to_string].
    now rewrite IH. }
  now rewrite E.
Qed.

Lemma errorMessage_of_entries
    (props : list (Js.str * Json.value)) (errs : list Json.value) (msgs : list Js.str) :
  Json.lookup (Js.lit "errors") props = Some (Json.Arr errs) ->
  Forall2 entry_with_message errs msgs ->
  errorMessage (Json.Obj props) = inr (Js.join SEPARATOR msgs).
Proof.
  intros Hl Hs. unfold errorMessage. cbn [Json.get]. rewrite Hl.
  cbn [Json.truthy]. rewrite (messages_of_entries _ _ Hs).
  apply join_of_strings.
Qed.

Lemma errorMessage_without_errors (data : Json.value) (v : option Json.value) :
  Json.get data (Js.lit "errors") = inr v -> Json.truthy v = false ->
  errorMessage data = inr MSG_FAILURE.
Proof. intros Hg Ht. unfold errorMessage. now rewrite Hg, Ht. Qed.

(** C1, as the code has it.  A submission answered with a status outside
    200..299, on a form with a submit button, settles with the status text
    in the failure colour, and the text is: the messages of the entries
    joined by ", " when the body is an object whose [errors] member is a
    list of entries with string messages; the generic failure message
    when the body was read and its [errors] member is absent (or null,
    false, zero or empty text); and the connection message when the body
    could not be read as JSON or computing the message raised. *)
Theorem failure_status_text
    (p : page) (b : button) (r : response) (latency reading : Z) :
  submitButton p = Some b -> ok r = false ->
  exists p',
    submission (Resolved r) latency reading p = Eff.Ok Settled p' /\
    status_color p' = RED /\
    (forall props errs msgs,
        json r = Some (Json.Obj props) ->
        Json.lookup (Js.lit "errors") props = Some (Json.Arr errs) ->
        Forall2 entry_with_message errs msgs ->
        status_text p' = Js.join SEPARATOR msgs) /\
    (forall data v,
        json r = Some data ->
        Json.get data (Js.lit "errors") = inr v -> Json.truthy v = false ->
        status_text p' = MSG_FAILURE) /\
    (json r = None -> status_text p' = MSG_CONNECTION) /\
    (forall data e,
        json r = Some data -> errorMessage data = inl e ->
        status_text p' = MSG_CONNECTION).
Proof.
  intros Hb Hok.
  destruct (submission_settles p b (Resolved r) latency reading Hb)
    as [q [color [E [_ [_ Hc]]]]].
  rewrite Hok in Hc. destruct Hc as [-> _].
  eexists. split; [exact E|].
  cbn [finished status_color status_text displayed]. rewrite Hok.
  unfold displayed_on_failure.
  split; [reflexivity | split; [|split; [|split]]].
  - intros props errs msgs Hj Hl Hs.
    now rewrite Hj, (errorMessage_of_entries _ _ _ Hl Hs).
  - intros data v Hj Hg Ht.
    now rewrite Hj, (errorMessage_without_errors _ _ Hg Ht).
  - now intros ->.
  - intros data e Hj He. now rewrite Hj, He.
Qed.

(** C6, as the code has it.  A submission answered with a status in
    200..299, on a form with a submit button, is settled by the one turn
    that receives the response: that turn sets the success message in the
    success colour, puts every field back to the value of its markup
    (empty for the fields whose markup gives none), and re-enables the
    submit button with the label "Kirim Pesan" (its label before the
    submission when the markup uses that text). *)
Theorem success_resets_form
    (p : page) (b : button) (r : response) (latency reading : Z) :
  submitButton p = Some b -> ok r = true ->
  exists q p',
    on_submit p = Eff.Ok AwaitFetch q /\
    after_fetch (Resolved r) (elapse latency q) = Eff.Ok Settled p' /\
    submission (Resolved r) latency reading p = Eff.Ok Settled p' /\
    status_text p' = MSG_SUCCESS /\
    status_color p' = GREEN /\
    map value (fields p') = map defaultValue (fields p) /\
    map defaultValue (fields p') = map defaultValue (fields p) /\
    (Forall (fun f => defaultValue f = []) (fields p) ->
     Forall (fun f => value f = []) (fields p')) /\
    submitButton p' = Some (mkButton false SEND_LABEL) /\
    (textContent b = SEND_LABEL ->
     option_map textContent (submitButton p') = Some (textContent b)).
Proof.
  intros Hb Hok.
  pose proof (on_submit_spec p b Hb) as E1.
  set (q := mkPage _ (fields p) _ _ _ _) in E1.
  destruct (elapse_frame latency q) as [Hbq [Hfq _]].
  cbn [submitButton fields q] in Hbq, Hfq.
  pose proof (after_fetch_success _ _ r Hbq Hok) as E2.
  eexists. eexists. split; [exact E1 | split; [exact E2|]].
  split.
  { unfold submission. rewrite E1. fold q. now rewrite E2. }
  cbn [finished status_text status_color fields submitButton].
  rewrite Hfq, !map_map. cbn [reset_field value defaultValue].
  repeat split.
  - intros Hd. apply Forall_map. cbn [reset_field value]. exact Hd.
  - now intros ->.
Qed.

(** C7, as the code has it.  Whatever a submission comes to (the request
    rejected, a success response, a failure response with any body), on a
    form with a submit button it settles with the button enabled and its
    label set to the fixed text "Kirim Pesan" (the script never saves the
    label it found, so this is the label from before the submission only
    when the markup uses that text), the outcome's message in the status
    element, and a clearing timer due 6000 ms after the time [T] of that
    turn.  With no other event, the status text is empty at [T + 6000] and
    from then on; and when no older timer was pending it keeps the message
    until then. *)
Theorem status_cleared_after_every_outcome
    (p : page) (b : button) (fr : fetch_result) (latency reading : Z) :
  submitButton p = Some b ->
  exists p',
    submission fr latency reading p = Eff.Ok Settled p' /\
    submitButton p' = Some (mkButton false SEND_LABEL) /\
    (textContent b = SEND_LABEL ->
     option_map textContent (submitButton p') = Some (textContent b)) /\
    status_text p' = displayed fr /\
    In (now p' + TIMING.formStatusClear, ClearStatus) (timers p') /\
    (forall dt, TIMING.formStatusClear <= dt -> status_text (elapse dt p') = []) /\
    (timers p = [] ->
     forall dt, dt < TIMING.formStatusClear ->
     status_text (elapse dt p') = displayed fr).
Proof.
  intros Hb.
  destruct (submission_settles p b fr latency reading Hb)
    as [q [color [E [Ht _]]]].
  eexists. split; [exact E|].
  assert (Hin : In (now (finished (displayed fr) color q) + TIMING.formStatusClear,
                    ClearStatus)
                   (timers (finished (displayed fr) color q))).
  { cbn [finished now timers]. apply in_or_app. right. now left. }
  split; [reflexivity | split; [|split; [reflexivity | split; [exact Hin | split]]]].
  - intros ->. reflexivity.
  - intros dt Hdt. apply (elapse_clears dt _ _ _ Hin). lia.
  - intros Hnone dt Hdt. rewrite elapse_idle; [reflexivity|].
    cbn [finished now timers]. rewrite (Ht Hnone).
    intros tm [<- | []]. simpl. lia.
Qed.

End ContactFormFacts.

Lemma failure_status_text_witness :
  exists p',
    ContactForm.submission (ContactForm.Resolved ContactForm.response_422) 300 20
      ContactForm.page_filled_in = Eff.Ok ContactForm.Settled p' /\
    ContactForm.status_text p' = Js.lit "Email required" /\
    ContactForm.status_color p' = ContactForm.RED.
Proof.
  destruct (failure_status_text ContactForm.page_filled_in
              (ContactForm.mkButton false ContactForm.SEND_LABEL)
              ContactForm.response_422 300 20 eq_refl eq_refl)
    as [p' [E [Hc [Hmsgs _]]]].
  exists p'. split; [exact E | split; [|exact Hc]].
  apply (Hmsgs _ _ [Js.lit "Email required"] eq_refl eq_refl).
  constructor; [|constructor].
  eexists. split; reflexivity.
Defined.

(** C1, as stated, fails: a failure response whose body is not JSON, and
    one whose [errors] member is not a list, both end with the connection
    message and not with the generic failure message. *)
Lemma failure_malformed_body_counterexample :
  ContactForm.ok ContactForm.response_not_json = false /\
  ContactForm.json ContactForm.response_not_json = None /\
  ContactForm.status_text
    (Eff.state_of
       (ContactForm.submission (ContactForm.Resolved ContactForm.response_not_json)
          300 20 ContactForm.page_filled_in))
    = ContactForm.MSG_CONNECTION /\
  ContactForm.ok ContactForm.response_errors_text = false /\
  ContactForm.status_text
    (Eff.state_of
       (ContactForm.submission (ContactForm.Resolved ContactForm.response_errors_text)
          300 20 ContactForm.page_filled_in))
    = ContactForm.MSG_CONNECTION /\
  ContactForm.MSG_CONNECTION <> ContactForm.MSG_FAILURE.
Proof. vm_compute. repeat split. discriminate. Qed.

Lemma success_resets_form_witness :
  exists p',
    ContactForm.submission (ContactForm.Resolved ContactForm.response_200) 300 20
      ContactForm.page_filled_in = Eff.Ok ContactForm.Settled p' /\
    ContactForm.status_text p' = ContactForm.MSG_SUCCESS /\
    map ContactForm.value (ContactForm.fields p') = [[]; []; []].
Proof.
  destruct (success_resets_form ContactForm.page_filled_in
              (ContactForm.mkButton false ContactForm.SEND_LABEL)
              ContactForm.response_200 300 20 eq_refl eq_refl)
    as [q [p' [_ [_ [E [Ht [_ [Hv _]]]]]]]].
  exists p'. split; [exact E | split; [exact Ht | exact Hv]].
Defined.

(** C6, as stated, fails: a field whose markup gives it a value goes back
    to that value, not to the empty string. *)
Lemma success_reset_counterexample :
  ContactForm.ok ContactForm.response_200 = true /\
  Eff.raised
    (ContactForm.submission (ContactForm.Resolved ContactForm.response_200)
       300 20 ContactForm.page_with_default) = None /\
  map ContactForm.value
    (ContactForm.fields
       (Eff.state_of
          (ContactForm.submission (ContactForm.Resolved ContactForm.response_200)
             300 20 ContactForm.page_with_default)))
    = [Js.lit "Halo, "] /\
  Js.lit "Halo, " <> [].
Proof. vm_compute. repeat split. discriminate. Qed.

Lemma status_cleared_after_every_outcome_witness :
  exists p',
    ContactForm.submission ContactForm.Rejected 300 20 ContactForm.page_filled_in
      = Eff.Ok ContactForm.Settled p' /\
    ContactForm.status_text p' = ContactForm.MSG_CONNECTION /\
    ContactForm.status_text (ContactForm.elapse 5999 p') = ContactForm.MSG_CONNECTION /\
    ContactForm.status_text (ContactForm.elapse 6000 p') = [].
Proof.
  destruct (status_cleared_after_every_outcome ContactForm.page_filled_in
              (ContactForm.mkButton false ContactForm.SEND_LABEL)
              ContactForm.Rejected 300 20 eq_refl)
    as [p' [E [_ [_ [Hs [_ [Hclear Hkeep]]]]]]].
  exists p'. split; [exact E | split; [exact Hs | split]].
  - apply (Hkeep eq_refl 5999). reflexivity.
  - apply (Hclear 6000). discriminate.
Defined.

(** C7, as stated, fails on the label: a button that reads "Send" before
    the submission is not given that label back; whatever the outcome it
    ends up enabled and reading "Kirim Pesan". *)
Lemma label_not_restored_counterexample :
  option_map ContactForm.textContent
    (ContactForm.submitButton
       (Eff.state_of
          (ContactForm.submission ContactForm.Rejected 300 20
             (ContactForm.mkPage
                (Some (ContactForm.mkButton false (Js.lit "Send")))
                [ContactForm.mkField [] (Js.lit "Ana")] [] [] 0 []))))
    = Some (Js.lit "Kirim Pesan") /\
  option_map ContactForm.textContent
    (ContactForm.submitButton
       (Eff.state_of
          (ContactForm.submission (ContactForm.Resolved ContactForm.response_200) 300 20
             (ContactForm.mkPage
                (Some (ContactForm.mkButton false (Js.lit "Send")))
                [ContactForm.mkField [] (Js.lit "Ana")] [] [] 0 []))))
    = Some (Js.lit "Kirim Pesan") /\
  option_map ContactForm.textContent
    (ContactForm.submitButton
       (Eff.state_of
          (ContactForm.submission (ContactForm.Resolved ContactForm.response_422) 300 20
             (ContactForm.mkPage
                (Some (ContactForm.mkButton false (Js.lit "Send")))
                [ContactForm.mkField [] (Js.lit "Ana")] [] [] 0 []))))
    = Some (Js.lit "Kirim Pesan") /\
  Js.lit "Kirim Pesan" <> Js.lit "Send".
Proof. vm_compute. repeat split. discriminate. Qed.

(** ** Missing elements *)

(** Initializers with a guard register nothing when their element is
    missing. *)
Lemma guarded_initializers_do_nothing :
  Typewriter.initTypingEffect Typewriter.text None = None /\
  ThemeToggle.initThemeToggle None = None /\
  ProjectFilter.initProjectFilter None = None /\
  ContactForm.initContactForm None (Some tt) = None /\
  ContactForm.initContactForm (Some tt) None = None.
Proof. repeat split. Qed.

(** C3 fails on three listeners: a click on an anchor whose target is not
    in the document, a submission of a form without a submit button, and
    the opening of a dialog without its title element each raise a
    TypeError instead of doing nothing. *)
Theorem missing_element_raises :
  SmoothScroll.on_click (Some (Js.lit "#about")) SmoothScroll.page_without_target
    = Eff.Throw Js.TypeError SmoothScroll.page_without_target /\
  ContactForm.on_submit ContactForm.page_without_button
    = Eff.Throw Js.TypeError ContactForm.page_without_button /\
  ProjectModal.openModal ProjectModal.trigger_with_live ProjectModal.page_without_title
    = Eff.Throw Js.TypeError ProjectModal.page_without_title.
Proof. repeat split. Qed.

(* ================================================================= *)
(** * Further properties *)

(** ** Typewriter: the deleting phase, what is written, and the clock *)

Section TypewriterMore.

Import Typewriter TypewriterClock.

Variable txt : Js.str.

(** [substring(0, k)] is a prefix whatever [k] is: positions outside the
    string are clamped. *)
Lemma js_substring_from_0 (s : Js.str) (k : Z) :
  Js.substring s 0 k =
  firstn (Z.to_nat (Z.max 0 (Z.min k (Js.length s)))) s.
Proof.
  pose proof (js_length_nonneg s) as Hl.
  unfold Js.substring, Js.clamp.
  replace (Z.max 0 (Z.min 0 (Js.length s))) with 0 by lia.
  set (b := Z.max 0 (Z.min k (Js.length s))).
  replace (Z.min 0 b) with 0 by lia.
  replace (Z.max 0 b) with b by lia.
  simpl. now rewrite Z.sub_0_r.
Qed.

Lemma typeWriter_writes (w : world) :
  innerHTML (typeWriter txt w) = Js.substring txt 0 (index w).
Proof.
  unfold typeWriter, setTimeout. cbn [index isDeleting innerHTML pending].
  destruct (negb (isDeleting w) && (index w <? Js.length txt)); [reflexivity|].
  destruct (isDeleting w && (index w >? 0)); reflexivity.
Qed.

(** Deleting phase: the [len + 1] invocations that follow the pause at
    full length all find the flag "deleting" and write, in order, the
    prefixes of length [len], [len - 1], ..., 0; each schedules its
    successor at the deleting speed, the last one (which clears the flag)
    at the pause delay, and the invocation after them finds the flag "not
    deleting". *)
Theorem deleting_phase_shows_prefixes (html : Js.str) :
  map (fun j => shown txt html (List.length txt + 1 + j)) (seq 0 (S (List.length txt))) =
    map (fun j => Some (firstn (List.length txt - j) txt)) (seq 0 (S (List.length txt)))
  /\ map (fun j => deleting_on_entry txt html (List.length txt + 1 + j))
         (seq 0 (S (List.length txt))) =
       map (fun _ => Some true) (seq 0 (S (List.length txt)))
  /\ map (fun j => delay_scheduled txt html (List.length txt + 1 + j))
         (seq 0 (S (List.length txt))) =
       map (fun j => Some [if (j <? List.length txt)%nat
                           then TIMING.deletingSpeed else TIMING.typingPause])
           (seq 0 (S (List.length txt)))
  /\ deleting_on_entry txt html (2 * List.length txt + 2) = Some false.
Proof.
  repeat split.
  - apply map_ext_in. intros j Hj. apply in_seq in Hj.
    unfold shown. rewrite after_deleting by lia.
    destruct (Nat.ltb_spec j (List.length txt)); cbn [option_map innerHTML].
    + reflexivity.
    + replace (List.length txt - j)%nat with 0%nat by lia. reflexivity.
  - apply map_ext_in. intros j Hj. apply in_seq in Hj.
    replace (List.length txt + 1 + j)%nat with (S (List.length txt + j)) by lia.
    unfold deleting_on_entry. destruct j as [|j].
    + rewrite Nat.add_0_r, after_typing by lia.
      now rewrite Nat.ltb_irrefl.
    + replace (List.length txt + S j)%nat with (List.length txt + 1 + j)%nat by lia.
      rewrite after_deleting by lia.
      destruct (Nat.ltb_spec j (List.length txt)); [reflexivity | lia].
  - apply map_ext_in. intros j Hj. apply in_seq in Hj.
    unfold delay_scheduled. rewrite after_deleting by lia.
    now destruct (j <? List.length txt)%nat.
  - replace (2 * List.length txt + 2)%nat
      with (S (List.length txt + 1 + List.length txt)) by lia.
    unfold deleting_on_entry. rewrite after_deleting by lia.
    now rewrite Nat.ltb_irrefl.
Qed.

(** Whatever the state, an invocation writes a prefix of the text: the
    one whose length is the index clamped to [0 .. len].  So everything the
    animation ever shows is a prefix of the text. *)
Theorem typewriter_writes_prefixes_only (html : Js.str) :
  (forall w,
      innerHTML (typeWriter txt w) =
      firstn (Z.to_nat (Z.max 0 (Z.min (index w) (Js.length txt)))) txt)
  /\ (forall k, exists n,
        (n <= List.length txt)%nat /\ shown txt html k = Some (firstn n txt)).
Proof.
  assert (G : forall w,
      innerHTML (typeWriter txt w) =
      firstn (Z.to_nat (Z.max 0 (Z.min (index w) (Js.length txt)))) txt).
  { intros w. rewrite typeWriter_writes. apply js_substring_from_0. }
  split; [exact G|].
  intros k. unfold shown.
  assert (B : forall i, (Z.to_nat (Z.max 0 (Z.min i (Js.length txt)))
                         <= List.length txt)%nat).
  { intros i. unfold Js.length. lia. }
  destruct k as [|k].
  - cbn [after initTypingEffect option_map]. rewrite G. eauto.
  - cbn [after].
    destruct (after_some_in_range txt html k) as [w [d [E [Hp _]]]].
    rewrite E. erewrite fire_single by exact Hp.
    cbn [option_map]. rewrite G. eauto.
Qed.

Lemma delay_of_typing (html : Js.str) (k : nat) :
  (k <= List.length txt)%nat ->
  delay_of txt html k =
  if (k <? List.length txt)%nat then TIMING.typingSpeed else TIMING.typingPause.
Proof.
  intros Hk. unfold delay_of. rewrite after_typing by exact Hk.
  now destruct (k <? List.length txt)%nat.
Qed.

Lemma delay_of_deleting (html : Js.str) (j : nat) :
  (j <= List.length txt)%nat ->
  delay_of txt html (List.length txt + 1 + j) =
  if (j <? List.length txt)%nat then TIMING.deletingSpeed else TIMING.typingPause.
Proof.
  intros Hj. unfold delay_of. rewrite after_deleting by exact Hj.
  now destruct (j <? List.length txt)%nat.
Qed.

Lemma time_of_typing (html : Js.str) (k : nat) :
  (k <= List.length txt)%nat ->
  time_of txt html k = TIMING.typingSpeed * Z.of_nat k.
Proof.
  induction k as [|k IH]; intros Hk; [reflexivity|].
  cbn [time_of]. rewrite IH, delay_of_typing by lia.
  destruct (Nat.ltb_spec k (List.length txt)); lia.
Qed.

Lemma time_of_deleting (html : Js.str) (j : nat) :
  (j <= List.length txt)%nat ->
  time_of txt html (List.length txt + 1 + j) =
  TIMING.typingSpeed * Js.length txt + TIMING.typingPause
  + TIMING.deletingSpeed * Z.of_nat j.
Proof.
  induction j as [|j IH]; intros Hj.
  - replace (List.length txt + 1 + 0)%nat with (S (List.length txt)) by lia.
    cbn [time_of]. rewrite time_of_typing, delay_of_typing by lia.
    rewrite Nat.ltb_irrefl. unfold Js.length. lia.
  - replace (List.length txt + 1 + S j)%nat
      with (S (List.length txt + 1 + j)) by lia.
    cbn [time_of]. rewrite IH, delay_of_deleting by lia.
    destruct (Nat.ltb_spec j (List.length txt)); lia.
Qed.



(** The full text is written twice in a row, by the pause at full length
    and by the first deleting step, so a non-empty text stays complete
    for 1300 ms before its last character goes; likewise the empty text
    is written by the pause at 0 and by the first typing step of the next
    cycle, and stays for 1350 ms. *)
Theorem typewriter_dwell (html : Js.str) :
  (0 < List.length txt)%nat ->
  shown txt html (List.length txt) = Some txt
  /\ shown txt html (List.length txt + 1) = Some txt
  /\ shown txt html (List.length txt + 2) = Some (firstn (List.length txt - 1) txt)
  /\ time_of txt html (List.length txt + 2) - time_of txt html (List.length txt) = 1300
  /\ shown txt html (2 * List.length txt + 1) = Some []
  /\ shown txt html (2 * List.length txt + 2) = Some []
  /\ shown txt html (2 * List.length txt + 3) = Some (firstn 1 txt)
  /\ time_of txt html (2 * List.length txt + 3)
     - time_of txt html (2 * List.length txt + 1) = 1350.
Proof.
  intros Hpos.
  assert (E0 : shown txt html (List.length txt) = Some txt).
  { unfold shown. rewrite after_typing by lia.
    rewrite Nat.ltb_irrefl. cbn [option_map innerHTML]. now rewrite firstn_all. }
  assert (E1 : shown txt html (List.length txt + 1) = Some txt).
  { unfold shown.
    replace (List.length txt + 1)%nat with (List.length txt + 1 + 0)%nat by lia.
    rewrite after_deleting by lia.
    destruct (Nat.ltb_spec 0 (List.length txt)); [|lia].
    cbn [option_map innerHTML]. now rewrite Nat.sub_0_r, firstn_all. }
  assert (E2 : shown txt html (List.length txt + 2) =
               Some (firstn (List.length txt - 1) txt)).
  { unfold shown.
    replace (List.length txt + 2)%nat with (List.length txt + 1 + 1)%nat by lia.
    rewrite after_deleting by lia.
    destruct (Nat.ltb_spec 1 (List.length txt)); cbn [option_map innerHTML].
    - reflexivity.
    - replace (List.length txt - 1)%nat with 0%nat by lia. reflexivity. }
  assert (E3 : shown txt html (2 * List.length txt + 1) = Some []).
  { unfold shown.
    replace (2 * List.length txt + 1)%nat
      with (List.length txt + 1 + List.length txt)%nat by lia.
    rewrite after_deleting by lia. now rewrite Nat.ltb_irrefl. }
  assert (P0 : forall k, shown txt html (k + period txt) = shown txt html k).
  { intros k. unfold shown. now rewrite after_periodic. }
  assert (E4 : shown txt html (2 * List.length txt + 2) = Some []).
  { change (2 * List.length txt + 2)%nat with (0 + period txt)%nat.
    rewrite P0. unfold shown. rewrite after_typing by lia.
    now destruct (0 <? List.length txt)%nat. }
  assert (E5 : shown txt html (2 * List.length txt + 3) = Some (firstn 1 txt)).
  { replace (2 * List.length txt + 3)%nat with (1 + period txt)%nat
      by (unfold period; lia).
    rewrite P0. unfold shown. rewrite after_typing by lia.
    now destruct (1 <? List.length txt)%nat. }
  repeat split; try assumption.
  - replace (List.length txt + 2)%nat with (List.length txt + 1 + 1)%nat by lia.
    rewrite time_of_deleting, time_of_typing by lia.
    unfold Js.length, TIMING.typingSpeed, TIMING.deletingSpeed,
      TIMING.typingPause. lia.
  - replace (2 * List.length txt + 3)%nat with (S (S (List.length txt + 1 + List.length txt)))
      by lia.
    replace (2 * List.length txt + 1)%nat
      with (List.length txt + 1 + List.length txt)%nat by lia.
    cbn [time_of].
    rewrite delay_of_deleting by lia. rewrite Nat.ltb_irrefl.
    replace (S (List.length txt + 1 + List.length txt)) with (0 + period txt)%nat
      by (unfold period; lia).
    unfold delay_of at 1. rewrite after_periodic.
    fold (delay_of txt html 0). rewrite delay_of_typing by lia.
    destruct (Nat.ltb_spec 0 (List.length txt)); [|lia].
    unfold TIMING.typingSpeed, TIMING.typingPause. lia.
Qed.

End TypewriterMore.

Lemma typewriter_dwell_witness :
  Typewriter.shown Typewriter.text [] 18 = Some Typewriter.text /\
  Typewriter.shown Typewriter.text [] 19 = Some Typewriter.text /\
  TypewriterClock.time_of Typewriter.text [] 20
  - TypewriterClock.time_of Typewriter.text [] 18 = 1300.
Proof.
  assert (H : (0 < List.length Typewriter.text)%nat) by (vm_compute; lia).
  destruct (typewriter_dwell Typewriter.text [] H)
    as [E0 [E1 [_ [T _]]]].
  repeat split; assumption.
Defined.

(** ** Class lists, continued *)

Lemma classlist_contains_remove_other (cl : ClassList.t) (c d : Js.str) :
  d <> c ->
  ClassList.contains (ClassList.remove cl c) d = ClassList.contains cl d.
Proof.
  intros Hne. unfold ClassList.contains, ClassList.remove.
  induction cl as [|x cl IH]; [reflexivity|].
  simpl. destruct (Js.eqb c x) eqn:E; simpl.
  - apply js_eqb_eq in E. subst x.
    assert (Js.eqb d c = false) as -> by now apply js_eqb_neq.
    exact IH.
  - now rewrite IH.
Qed.

Lemma classlist_contains_add_any (cl : ClassList.t) (c d : Js.str) :
  ClassList.contains (ClassList.add cl c) d =
  ClassList.contains cl d || Js.eqb d c.
Proof.
  unfold ClassList.add. destruct (ClassList.contains cl c) eqn:E.
  - destruct (Js.eqb d c) eqn:Ed.
    + apply js_eqb_eq in Ed. subst d. now rewrite E.
    + now rewrite orb_false_r.
  - rewrite classlist_contains_app. unfold ClassList.contains at 2. simpl.
    now rewrite orb_false_r.
Qed.

Lemma classlist_contains_toggle_other (cl : ClassList.t) (c d : Js.str) :
  d <> c ->
  ClassList.contains (ClassList.toggle cl c) d = ClassList.contains cl d.
Proof.
  intros Hne. unfold ClassList.toggle.
  destruct (ClassList.contains cl c).
  - now apply classlist_contains_remove_other.
  - rewrite classlist_contains_app. unfold ClassList.contains at 2. simpl.
    assert (Js.eqb d c = false) as -> by now apply js_eqb_neq.
    now rewrite !orb_false_r.
Qed.

(** ** Theme toggle, continued *)

(** The toggle leaves every other class of the body alone, however often
    it is clicked. *)
Theorem theme_clicks_keep_other_classes (p : ThemeToggle.page) (n : nat) (c : Js.str) :
  c <> CLASSES.darkMode ->
  ClassList.contains (ThemeToggle.body_classList (ThemeToggle.clicks n p)) c =
  ClassList.contains (ThemeToggle.body_classList p) c.
Proof.
  intros Hc. induction n as [|n IH]; [reflexivity|].
  cbn [ThemeToggle.clicks]. unfold ThemeToggle.on_click.
  cbn [ThemeToggle.body_classList].
  now rewrite classlist_contains_toggle_other.
Qed.

Lemma theme_clicks_keep_other_classes_witness :
  ClassList.contains
    (ThemeToggle.body_classList
       (ThemeToggle.clicks 5
          (ThemeToggle.mkPage [Js.lit "home"; Js.lit "dark-mode"] ThemeToggle.MOON None)))
    (Js.lit "home") = true.
Proof.
  rewrite (theme_clicks_keep_other_classes
             (ThemeToggle.mkPage [Js.lit "home"; Js.lit "dark-mode"] ThemeToggle.MOON None)
             5 (Js.lit "home")).
  - reflexivity.
  - discriminate.
Defined.

(** From any start, a body that already carries the class included: [n]
    clicks flip the mode exactly when [n] is odd; after one or more clicks
    icon and label agree with the mode; and two further clicks bring back
    the same mode, icon and label. *)
Theorem theme_clicks_from_any_start (p : ThemeToggle.page) (n : nat) :
  ThemeToggle.is_dark (ThemeToggle.clicks n p) =
    xorb (Nat.odd n) (ThemeToggle.is_dark p)
  /\ ThemeToggle.consistent (ThemeToggle.clicks (S n) p)
  /\ ThemeToggle.is_dark (ThemeToggle.clicks (S (S n)) p) =
     ThemeToggle.is_dark (ThemeToggle.clicks n p)
  /\ ThemeToggle.textContent (ThemeToggle.clicks (S (S (S n))) p) =
     ThemeToggle.textContent (ThemeToggle.clicks (S n) p)
  /\ ThemeToggle.aria_label (ThemeToggle.clicks (S (S (S n))) p) =
     ThemeToggle.aria_label (ThemeToggle.clicks (S n) p).
Proof.
  assert (T : forall q,
             ThemeToggle.textContent (ThemeToggle.on_click q) =
             if ThemeToggle.is_dark (ThemeToggle.on_click q)
             then ThemeToggle.MOON else ThemeToggle.SUN) by reflexivity.
  assert (A : forall q,
             ThemeToggle.aria_label (ThemeToggle.on_click q) =
             Some (if ThemeToggle.is_dark (ThemeToggle.on_click q)
                   then ThemeToggle.TO_LIGHT else ThemeToggle.TO_DARK))
    by reflexivity.
  assert (D : forall q,
             ThemeToggle.is_dark (ThemeToggle.on_click (ThemeToggle.on_click q)) =
             ThemeToggle.is_dark q).
  { intros q. rewrite !theme_click_flips. apply negb_involutive. }
  split; [apply theme_clicks_parity|].
  split; [cbn [ThemeToggle.clicks]; apply theme_click_consistent|].
  cbn [ThemeToggle.clicks].
  split; [apply D|].
  split.
  - rewrite (T (ThemeToggle.on_click (ThemeToggle.on_click _))), D. symmetry. apply T.
  - rewrite (A (ThemeToggle.on_click (ThemeToggle.on_click _))), D. symmetry. apply A.
Qed.

(** ** Navigation: hamburger menu and smooth scrolling *)

Section NavigationFacts.

Import SmoothScroll HamburgerMenu.

Lemma anchor_click_found (p : page) (href : option Js.str) (el : nat) :
  querySelector p (selector href) = Found el ->
  exists p',
    SmoothScroll.on_click href p = Eff.Ok tt p' /\
    scrolledTo p' = Some el /\
    (nav_is_open p = true ->
     nav_is_open p' = false /\ burger_is_toggled p' = false) /\
    (nav_is_open p = false ->
     navLinks p' = navLinks p /\ hamburger p' = hamburger p).
Proof.
  intros Hq. unfold SmoothScroll.on_click. rewrite Hq.
  unfold nav_is_open at 1. cbn [navLinks].
  fold (nav_is_open p).
  destruct (nav_is_open p) eqn:Hopen.
  - eexists. split; [reflexivity|].
    cbn [scrolledTo]. split; [reflexivity|].
    unfold nav_is_open, burger_is_toggled. cbn [navLinks hamburger].
    split; [|discriminate].
    intros _. split.
    + destruct (navLinks p); [|reflexivity]. cbn [option_map].
      apply classlist_contains_remove.
    + destruct (hamburger p); [|reflexivity]. cbn [option_map].
      apply classlist_contains_remove.
  - eexists. split; [reflexivity|].
    cbn [scrolledTo navLinks hamburger].
    split; [reflexivity|]. split; [discriminate | now split].
Qed.

(** A click on an anchor whose target exists scrolls to it and leaves the
    mobile menu closed: an open menu loses [active] and its button loses
    [toggle]; a closed menu and its button are not touched.  A click whose
    target is missing or whose [href] is no selector raises and changes
    nothing, so an open menu stays open. *)
Theorem anchor_click_closes_menu (p : page) (href : option Js.str) :
  (forall el,
      querySelector p (selector href) = Found el ->
      exists p',
        SmoothScroll.on_click href p = Eff.Ok tt p' /\
        scrolledTo p' = Some el /\
        nav_is_open p' = false /\
        (nav_is_open p = true -> burger_is_toggled p' = false) /\
        (nav_is_open p = false ->
         navLinks p' = navLinks p /\ hamburger p' = hamburger p))
  /\ ((forall el, querySelector p (selector href) <> Found el) ->
      Eff.raised (SmoothScroll.on_click href p) <> None /\
      Eff.state_of (SmoothScroll.on_click href p) = p).
Proof.
  split.
  - intros el Hq.
    destruct (anchor_click_found p href el Hq) as [p' [E [Hs [Hopen Hclosed]]]].
    exists p'. split; [exact E | split; [exact Hs|]].
    destruct (nav_is_open p) eqn:Ho.
    + destruct (Hopen eq_refl) as [H1 H2].
      split; [exact H1 | split; [now intros _ | discriminate]].
    + destruct (Hclosed eq_refl) as [H1 H2].
      split; [|split; [discriminate | now intros _]].
      unfold nav_is_open in *. now rewrite H1.
  - intros Hq. unfold SmoothScroll.on_click.
    destruct (querySelector p (selector href)) as [| |el] eqn:E.
    + split; [discriminate | reflexivity].
    + split; [discriminate | reflexivity].
    + now destruct (Hq el).
Qed.

Lemma burger_click_flips (p : page) (nav burger : ClassList.t) :
  navLinks p = Some nav -> hamburger p = Some burger ->
  nav_is_open (HamburgerMenu.on_click p) = negb (nav_is_open p) /\
  burger_is_toggled (HamburgerMenu.on_click p) = negb (burger_is_toggled p).
Proof.
  intros Hn Hb. unfold HamburgerMenu.on_click, nav_is_open, burger_is_toggled.
  rewrite Hn, Hb. cbn [navLinks hamburger].
  split; apply classlist_contains_toggle.
Qed.

Lemma handle_keeps_elements (p : page) (e : event) :
  (navLinks (handle p e) = None <-> navLinks p = None) /\
  (hamburger (handle p e) = None <-> hamburger p = None).
Proof.
  destruct e as [|href]; cbn [handle].
  - unfold HamburgerMenu.on_click.
    destruct (navLinks p) eqn:Hn, (hamburger p) eqn:Hb; cbn [navLinks hamburger];
      rewrite ?Hn, ?Hb; split; split; congruence.
  - unfold SmoothScroll.on_click.
    destruct (querySelector p (selector href)); cbn [Eff.state_of];
      try (split; reflexivity).
    destruct (nav_is_open _); cbn [Eff.state_of navLinks hamburger];
      try (split; reflexivity).
    destruct (navLinks p), (hamburger p); cbn [option_map];
      split; split; congruence.
Qed.

Lemma handle_keeps_sync (p : page) (e : event) :
  in_sync p -> in_sync (handle p e).
Proof.
  intros Hs Hn' Hb'.
  destruct (handle_keeps_elements p e) as [Kn Kb].
  assert (Hn : navLinks p <> None) by (intros E; apply Hn'; now apply Kn).
  assert (Hb : hamburger p <> None) by (intros E; apply Hb'; now apply Kb).
  specialize (Hs Hn Hb).
  destruct e as [|href]; cbn [handle].
  - destruct (navLinks p) as [nav|] eqn:En; [|contradiction].
    destruct (hamburger p) as [burger|] eqn:Eb; [|contradiction].
    destruct (burger_click_flips p nav burger En Eb) as [-> ->].
    now rewrite Hs.
  - destruct (querySelector p (selector href)) as [| |el] eqn:Eq.
    + unfold SmoothScroll.on_click. rewrite Eq. exact Hs.
    + unfold SmoothScroll.on_click. rewrite Eq. exact Hs.
    + destruct (anchor_click_found p href el Eq)
        as [p' [E [_ [Hopen Hclosed]]]].
      rewrite E. cbn [Eff.state_of].
      destruct (nav_is_open p) eqn:Ho.
      * destruct (Hopen eq_refl) as [-> ->]. reflexivity.
      * destruct (Hclosed eq_refl) as [Hnl Hhb].
        assert (E1 : nav_is_open p' = nav_is_open p)
          by (unfold nav_is_open; now rewrite Hnl).
        assert (E2 : burger_is_toggled p' = burger_is_toggled p)
          by (unfold burger_is_toggled; now rewrite Hhb).
        rewrite E1, E2, Ho. exact Hs.
Qed.

End NavigationFacts.

Section NavigationInvariants.

Import SmoothScroll HamburgerMenu.

(** Menu and button never get out of step: when the menu is open exactly
    when its button is toggled (as on a freshly loaded page, where neither
    is), this still holds after any sequence of hamburger clicks and anchor
    clicks, whether the anchors' targets exist or not. *)
Theorem navigation_stays_in_sync (es : list event) (p : page) :
  in_sync p -> in_sync (run es p).
Proof.
  unfold run. revert p. induction es as [|e es IH]; intros p Hs; [exact Hs|].
  cbn [fold_left]. apply IH. now apply handle_keeps_sync.
Qed.

Lemma burger_clicks_keep_elements (n : nat) (p : page) (nav burger : ClassList.t) :
  navLinks p = Some nav -> hamburger p = Some burger ->
  exists nav' burger',
    navLinks (clicks n p) = Some nav' /\ hamburger (clicks n p) = Some burger'.
Proof.
  intros Hn Hb. induction n as [|n [nav' [burger' [En Eb]]]].
  - now exists nav, burger.
  - cbn [clicks]. unfold HamburgerMenu.on_click. rewrite En, Eb.
    cbn [navLinks hamburger]. eauto.
Qed.

(** The hamburger button: on a page that has the menu and the button, [n]
    clicks flip "menu open" and "button toggled" exactly when [n] is odd,
    so a second click undoes the first; on a page that lacks either
    element, clicks change nothing. *)
Theorem hamburger_clicks_parity (n : nat) (p : page) :
  (forall nav burger,
      navLinks p = Some nav -> hamburger p = Some burger ->
      nav_is_open (clicks n p) = xorb (Nat.odd n) (nav_is_open p) /\
      burger_is_toggled (clicks n p) = xorb (Nat.odd n) (burger_is_toggled p))
  /\ (navLinks p = None \/ hamburger p = None -> clicks n p = p).
Proof.
  split.
  - intros nav burger Hn Hb. induction n as [|n [IHn IHb]].
    + cbn [clicks]. now destruct (nav_is_open p), (burger_is_toggled p).
    + destruct (burger_clicks_keep_elements n p nav burger Hn Hb)
        as [nav' [burger' [En Eb]]].
      cbn [clicks].
      destruct (burger_click_flips (clicks n p) nav' burger' En Eb) as [-> ->].
      rewrite IHn, IHb, Nat.odd_succ, <- Nat.negb_odd.
      destruct (Nat.odd n), (nav_is_open p), (burger_is_toggled p); now split.
  - intros H. induction n as [|n IH]; [reflexivity|].
    cbn [clicks]. rewrite IH. unfold HamburgerMenu.on_click.
    destruct H as [-> | H]; [reflexivity|].
    rewrite H. now destruct (navLinks p).
Qed.

End NavigationInvariants.

Lemma anchor_click_closes_menu_witness :
  exists p',
    SmoothScroll.on_click (Some (Js.lit "#about"))
      (SmoothScroll.mkPage (fun _ => SmoothScroll.Found 7)
         (Some [Js.lit "nav-links"; Js.lit "active"])
         (Some [Js.lit "hamburger"; Js.lit "toggle"]) None)
      = Eff.Ok tt p' /\
    SmoothScroll.scrolledTo p' = Some 7%nat /\
    SmoothScroll.nav_is_open p' = false /\
    HamburgerMenu.burger_is_toggled p' = false.
Proof.
  destruct (proj1 (anchor_click_closes_menu
                     (SmoothScroll.mkPage (fun _ => SmoothScroll.Found 7)
                        (Some [Js.lit "nav-links"; Js.lit "active"])
                        (Some [Js.lit "hamburger"; Js.lit "toggle"]) None)
                     (Some (Js.lit "#about"))) 7%nat eq_refl)
    as [p' [E [Hs [Hc [Hb _]]]]].
  exists p'. repeat split; try assumption. now apply Hb.
Defined.

Lemma navigation_stays_in_sync_witness :
  HamburgerMenu.in_sync
    (HamburgerMenu.run
       [HamburgerMenu.BurgerClick; HamburgerMenu.AnchorClick (Some (Js.lit "#about"));
        HamburgerMenu.BurgerClick; HamburgerMenu.BurgerClick]
       (SmoothScroll.mkPage (fun _ => SmoothScroll.Found 7)
          (Some [Js.lit "nav-links"]) (Some [Js.lit "hamburger"]) None)).
Proof.
  apply navigation_stays_in_sync.
  intros _ _. reflexivity.
Defined.

Lemma hamburger_clicks_parity_witness :
  SmoothScroll.nav_is_open
    (HamburgerMenu.clicks 3
       (SmoothScroll.mkPage (fun _ => SmoothScroll.NoMatch)
          (Some [Js.lit "nav-links"]) (Some [Js.lit "hamburger"]) None)) = true.
Proof.
  destruct (proj1 (hamburger_clicks_parity 3
                     (SmoothScroll.mkPage (fun _ => SmoothScroll.NoMatch)
                        (Some [Js.lit "nav-links"]) (Some [Js.lit "hamburger"]) None))
              [Js.lit "nav-links"] [Js.lit "hamburger"] eq_refl eq_refl)
    as [H _].
  exact H.
Defined.

(** ** Reveal on scroll *)

Section FadeInFacts.

Import FadeIn.

Lemma reveal_nth (i j : nat) (els : page) :
  nth_error (reveal i els) j =
  if Nat.eqb i j then option_map (fun cl => ClassList.add cl SHOW) (nth_error els j)
  else nth_error els j.
Proof.
  revert i j. induction els as [|cl els IH]; intros i j.
  - destruct i, j; cbn; try reflexivity; now destruct (Nat.eqb i j).
  - destruct i as [|i], j as [|j]; cbn [reveal nth_error Nat.eqb option_map];
      try reflexivity.
    apply IH.
Qed.

Lemma reveal_length (i : nat) (els : page) :
  List.length (reveal i els) = List.length els.
Proof.
  revert i. induction els as [|cl els IH]; intros [|i]; cbn; congruence.
Qed.

(** The observer's callback only ever adds [show]: it keeps the number
    and order of the elements, and an element carries a class afterwards
    exactly when it carried it before or the class is [show] and some
    entry reports the element as intersecting.  An entry that reports an
    element as not intersecting hides nothing. *)
Theorem fade_in_only_reveals (entries : list entry) (els : page) :
  List.length (callback entries els) = List.length els
  /\ forall i cl,
       nth_error els i = Some cl ->
       exists cl',
         nth_error (callback entries els) i = Some cl' /\
         forall c,
           ClassList.contains cl' c =
           ClassList.contains cl c || (Js.eqb c SHOW && reported entries i).
Proof.
  unfold callback. revert els.
  induction entries as [|e entries IH]; intros els.
  - cbn [fold_left reported existsb]. split; [reflexivity|].
    intros i cl H. exists cl. split; [exact H|].
    intros c. now rewrite andb_false_r, orb_false_r.
  - cbn [fold_left].
    set (els1 := if isIntersecting e then reveal (target e) els else els).
    destruct (IH els1) as [Hlen Hall].
    split.
    + rewrite Hlen. unfold els1.
      destruct (isIntersecting e); [apply reveal_length | reflexivity].
    + intros i cl Hi.
      set (b := Nat.eqb (target e) i && isIntersecting e).
      assert (H1 : nth_error els1 i = Some (if b then ClassList.add cl SHOW else cl)).
      { unfold els1, b. destruct (isIntersecting e).
        - rewrite reveal_nth, Hi.
          destruct (Nat.eqb (target e) i); reflexivity.
        - now rewrite andb_false_r. }
      destruct (Hall i _ H1) as [cl' [E Hc]].
      exists cl'. split; [exact E|].
      intros c. rewrite Hc. cbn [reported existsb]. fold (reported entries i).
      fold b. destruct b.
      * rewrite classlist_contains_add_any.
        destruct (ClassList.contains cl c), (Js.eqb c SHOW),
          (reported entries i); reflexivity.
      * reflexivity.
Qed.

End FadeInFacts.

Lemma fade_in_only_reveals_witness :
  exists cl',
    nth_error
      (FadeIn.callback
         [FadeIn.mkEntry 1 true; FadeIn.mkEntry 0 false]
         [[Js.lit "hidden"; Js.lit "show"]; [Js.lit "hidden"]]) 1
      = Some cl' /\
    ClassList.contains cl' FadeIn.SHOW = true.
Proof.
  destruct (proj2 (fade_in_only_reveals
                     [FadeIn.mkEntry 1 true; FadeIn.mkEntry 0 false]
                     [[Js.lit "hidden"; Js.lit "show"]; [Js.lit "hidden"]])
              1%nat [Js.lit "hidden"] eq_refl)
    as [cl' [E Hc]].
  exists cl'. split; [exact E|]. rewrite Hc. reflexivity.
Defined.

(** ** Project filter, continued *)

Section ProjectFilterMore.

Import ProjectFilter FilterBar.

Lemma classlist_toggle_force_idem (cl : ClassList.t) (c : Js.str) (force : bool) :
  ClassList.toggle_force (ClassList.toggle_force cl c force) c force =
  ClassList.toggle_force cl c force.
Proof.
  destruct force; cbn [ClassList.toggle_force].
  - unfold ClassList.add at 1. now rewrite classlist_contains_add.
  - unfold ClassList.remove. induction cl as [|x cl IH]; [reflexivity|].
    simpl. destruct (Js.eqb c x) eqn:E; simpl; [exact IH|].
    rewrite E. simpl. now f_equal.
Qed.

Lemma filter_cards_idem (fv : option Js.str) (cs : list card) :
  filter_cards fv (fst (filter_cards fv cs)) = filter_cards fv cs.
Proof.
  induction cs as [|c cs IH]; [reflexivity|].
  cbn [filter_cards].
  destruct (isVisible fv c) as [e|v] eqn:Ev.
  - cbn [fst filter_cards]. now rewrite Ev.
  - destruct (filter_cards fv cs) as [cs' r] eqn:E.
    cbn [fst] in IH |- *. cbn [filter_cards].
    assert (Ev' : isVisible fv
              (mkCard (ClassList.toggle_force (card_classList c) CLASSES.hide (negb v))
                      (category c)) = inr v) by exact Ev.
    rewrite Ev', IH. cbn [card_classList category].
    now rewrite classlist_toggle_force_idem.
Qed.

(** What a click on a filter button comes to: the [active] class moves,
    and the cards are what the loop over them leaves. *)
Lemma on_click_filter_button (p : page) (t : target) (tgt : element) :
  element_at p t = Some tgt ->
  ClassList.contains (classList tgt) FILTER_BTN = true ->
  cards (Eff.state_of (on_click t p)) = fst (filter_cards (data_filter tgt) (cards p)) /\
  Eff.raised (on_click t p) = snd (filter_cards (data_filter tgt) (cards p)) /\
  container (Eff.state_of (on_click t p)) =
    container (activate_target t
                 (mkPage (container p) (clear_first_active (descendants p)) (cards p))) /\
  descendants (Eff.state_of (on_click t p)) =
    descendants (activate_target t
                   (mkPage (container p) (clear_first_active (descendants p)) (cards p))).
Proof.
  intros Ht Hb. unfold on_click. rewrite Ht, Hb. cbn [negb].
  rewrite activate_target_cards. cbn [cards].
  destruct (filter_cards (data_filter tgt) (cards p)) as [cs [e|]];
    cbn [Eff.state_of Eff.raised cards container descendants fst snd];
    repeat split.
Qed.

Lemma clear_first_active_nth (els : list element) (i : nat) (e : element) :
  nth_error els i = Some e ->
  exists e',
    nth_error (clear_first_active els) i = Some e' /\
    data_filter e' = data_filter e /\
    (forall c, c <> CLASSES.active ->
               ClassList.contains (classList e') c = ClassList.contains (classList e) c).
Proof.
  revert i. induction els as [|x els IH]; intros i Hi.
  - destruct i; discriminate.
  - cbn [clear_first_active].
    destruct (ClassList.contains (classList x) CLASSES.active) eqn:Ea.
    + destruct i as [|i]; cbn [nth_error] in *.
      * injection Hi as <-. eexists. split; [reflexivity|].
        cbn [data_filter classList]. split; [reflexivity|].
        intros c Hc. now apply classlist_contains_remove_other.
      * exists e. now repeat split.
    + destruct i as [|i]; cbn [nth_error] in *.
      * exists e. now repeat split.
      * now apply IH.
Qed.

Lemma update_nth_nth (i : nat) (f : element -> element) (els : list element) (e : element) :
  nth_error els i = Some e ->
  nth_error (update_nth i f els) i = Some (f e).
Proof.
  revert i. induction els as [|x els IH]; intros [|i] Hi; try discriminate.
  - cbn in *. congruence.
  - cbn in *. now apply IH.
Qed.

Lemma filter_btn_not_active : FILTER_BTN <> CLASSES.active.
Proof. discriminate. Qed.

(** After a click on a filter button the same target is still a filter
    button with the same filter value. *)
Lemma on_click_keeps_target (p : page) (t : target) (tgt : element) :
  element_at p t = Some tgt ->
  ClassList.contains (classList tgt) FILTER_BTN = true ->
  exists tgt',
    element_at (Eff.state_of (on_click t p)) t = Some tgt' /\
    data_filter tgt' = data_filter tgt /\
    ClassList.contains (classList tgt') FILTER_BTN = true /\
    ClassList.contains (classList tgt') CLASSES.active = true.
Proof.
  intros Ht Hb.
  destruct (on_click_filter_button p t tgt Ht Hb) as [_ [_ [Hc Hd]]].
  destruct t as [|i]; cbn [element_at activate_target container descendants] in *.
  - injection Ht as <-. rewrite Hc. eexists. split; [reflexivity|].
    unfold activate. cbn [data_filter classList].
    split; [reflexivity|]. split.
    + rewrite classlist_contains_add_any, Hb. reflexivity.
    + apply classlist_contains_add.
  - rewrite Hd.
    destruct (clear_first_active_nth _ _ _ Ht) as [e' [E [Hf Hcl]]].
    rewrite (update_nth_nth _ _ _ _ E).
    eexists. split; [reflexivity|].
    unfold activate. cbn [data_filter classList].
    split; [exact Hf|]. split.
    + rewrite classlist_contains_add_any, (Hcl _ filter_btn_not_active), Hb.
      reflexivity.
    + apply classlist_contains_add.
Qed.

(** Filter idempotence: a second click on the same target leaves the
    cards exactly as the first click left them, and ends the same way
    (normally, or with the same exception). *)
Theorem filter_click_twice_same_cards (p : page) (t : target) :
  cards (Eff.state_of (on_click t (Eff.state_of (on_click t p)))) =
    cards (Eff.state_of (on_click t p))
  /\ Eff.raised (on_click t (Eff.state_of (on_click t p))) =
     Eff.raised (on_click t p).
Proof.
  destruct (element_at p t) as [tgt|] eqn:Ht.
  - destruct (ClassList.contains (classList tgt) FILTER_BTN) eqn:Hb.
    + destruct (on_click_filter_button p t tgt Ht Hb) as [Hc [Hr _]].
      destruct (on_click_keeps_target p t tgt Ht Hb) as [tgt' [Ht' [Hf' [Hb' _]]]].
      destruct (on_click_filter_button _ t tgt' Ht' Hb') as [Hc' [Hr' _]].
      rewrite Hc', Hr', Hf', Hc, Hr, filter_cards_idem. now split.
    + assert (E : on_click t p = Eff.Ok tt p).
      { unfold on_click. now rewrite Ht, Hb. }
      rewrite E. cbn [Eff.state_of]. rewrite E. now split.
  - assert (E : on_click t p = Eff.Ok tt p).
    { unfold on_click. now rewrite Ht. }
    rewrite E. cbn [Eff.state_of]. rewrite E. now split.
Qed.

Lemma active_count_clear (els : list element) :
  active_count (clear_first_active els) = pred (active_count els).
Proof.
  unfold active_count. induction els as [|x els IH]; [reflexivity|].
  cbn [clear_first_active].
  destruct (ClassList.contains (classList x) CLASSES.active) eqn:Ea.
  - assert (E1 : is_active (mkElement (ClassList.remove (classList x) CLASSES.active)
                                      (data_filter x)) = false)
      by (unfold is_active; cbn [classList]; apply classlist_contains_remove).
    assert (E2 : is_active x = true) by exact Ea.
    cbn [filter]. rewrite E1, E2. reflexivity.
  - assert (E2 : is_active x = false) by exact Ea.
    cbn [filter]. rewrite E2. exact IH.
Qed.

Lemma active_count_activate (els : list element) (i : nat) (e : element) :
  nth_error els i = Some e ->
  active_count (update_nth i activate els) =
  (active_count els + if is_active e then 0 else 1)%nat.
Proof.
  unfold active_count. revert i.
  induction els as [|x els IH]; intros [|i] Hi; try discriminate.
  - cbn in Hi. injection Hi as ->. cbn [update_nth filter].
    unfold is_active at 1. unfold activate at 1. cbn [classList].
    rewrite classlist_contains_add.
    destruct (is_active e); cbn [List.length]; lia.
  - cbn in Hi. cbn [update_nth filter].
    destruct (is_active x); cbn [List.length]; rewrite (IH i Hi); lia.
Qed.

(** Single selection: a click on a filter button among the descendants
    of the bar leaves that button active, and when at most one descendant
    was active before, it is the only active one afterwards; in any case
    the number of active descendants does not grow beyond what it was
    (or one). *)
Theorem filter_click_single_selection (p : page) (i : nat) (tgt : element) :
  nth_error (descendants p) i = Some tgt ->
  ClassList.contains (classList tgt) FILTER_BTN = true ->
  let after := descendants (Eff.state_of (on_click (Child i) p)) in
  (exists tgt', nth_error after i = Some tgt' /\ is_active tgt' = true)
  /\ (1 <= active_count after <= Nat.max 1 (active_count (descendants p)))%nat
  /\ ((active_count (descendants p) <= 1)%nat -> active_count after = 1%nat).
Proof.
  intros Hi Hb after.
  assert (Ht : element_at p (Child i) = Some tgt) by exact Hi.
  destruct (on_click_filter_button p (Child i) tgt Ht Hb) as [_ [_ [_ Hd]]].
  cbn [activate_target descendants] in Hd.
  destruct (clear_first_active_nth _ _ _ Hi) as [e' [E _]].
  assert (Hcount : active_count after =
                   (pred (active_count (descendants p))
                    + if is_active e' then 0 else 1)%nat).
  { unfold after. rewrite Hd, (active_count_activate _ _ _ E).
    now rewrite active_count_clear. }
  assert (Hpos : is_active e' = true ->
                 (1 <= pred (active_count (descendants p)))%nat).
  { intros Ha. rewrite <- active_count_clear. unfold active_count.
    apply nth_error_In in E.
    assert (In e' (filter is_active (clear_first_active (descendants p))))
      by (apply filter_In; now split).
    destruct (filter is_active (clear_first_active (descendants p)));
      [contradiction | cbn; lia]. }
  split; [|split].
  - unfold after. rewrite Hd, (update_nth_nth _ _ _ _ E).
    eexists. split; [reflexivity|].
    unfold is_active, activate. cbn [classList]. apply classlist_contains_add.
  - rewrite Hcount. destruct (is_active e'); [specialize (Hpos eq_refl)|]; lia.
  - intros Hle. rewrite Hcount.
    destruct (is_active e'); [specialize (Hpos eq_refl)|]; lia.
Qed.

End ProjectFilterMore.

Lemma filter_click_single_selection_witness :
  FilterBar.active_count
    (ProjectFilter.descendants
       (Eff.state_of
          (ProjectFilter.on_click (ProjectFilter.Child 1) ProjectFilter.page_two_cards)))
    = 1%nat.
Proof.
  destruct (filter_click_single_selection ProjectFilter.page_two_cards 1
              (ProjectFilter.mkElement [Js.lit "filter-btn"] (Some (Js.lit "web")))
              eq_refl eq_refl) as [_ [_ H]].
  apply H. vm_compute. lia.
Defined.

Section ProjectFilterEdges.

Import ProjectFilter FilterBar.

Lemma visible_set_shown (v : bool) (c : card) : visible (set_shown v c) = v.
Proof.
  unfold visible, set_shown. cbn [card_classList].
  now rewrite classlist_contains_toggle_force, negb_involutive.
Qed.

Lemma filter_cards_missing (f : Js.str) (cs : list card) (j : nat) :
  f <> ALL -> first_without_category cs = Some j ->
  exists cs',
    filter_cards (Some f) cs = (cs', Some Js.TypeError) /\
    skipn j cs' = skipn j cs /\
    Forall2 (shown_as f) (firstn j cs) (firstn j cs').
Proof.
  intros Hf. revert j. induction cs as [|c cs IH]; intros j Hj; [discriminate|].
  cbn [first_without_category] in Hj.
  destruct (category c) as [cat|] eqn:Ec.
  - destruct (first_without_category cs) as [j'|]; [|discriminate].
    injection Hj as <-.
    destruct (IH j' eq_refl) as [cs' [E [Hs Hb]]].
    assert (Hc : f = ALL \/ category c <> None) by (right; congruence).
    destruct (isVisible_spec f c Hc) as [v [Ev Hv]].
    cbn [filter_cards]. rewrite Ev, E.
    eexists. split; [reflexivity|].
    cbn [skipn firstn]. split; [exact Hs|].
    constructor; [|exact Hb].
    split; [reflexivity|].
    unfold visible. cbn [card_classList].
    rewrite classlist_contains_toggle_force, negb_involutive. exact Hv.
  - injection Hj as <-.
    assert (Ev : isVisible (Some f) c = inl Js.TypeError).
    { unfold isVisible, is_all.
      assert (Js.eqb f ALL = false) as -> by now apply js_eqb_neq.
      now rewrite Ec. }
    cbn [filter_cards]. rewrite Ev.
    eexists. split; [reflexivity|].
    cbn [skipn firstn]. split; [reflexivity | constructor].
Qed.

(** A card without a category breaks every filter but "all": the click
    raises a TypeError at the first such card, in document order.  By then
    the [active] class has moved to the clicked button and the cards before
    that one are filtered; that card and all later ones keep the
    visibility they had. *)
Theorem filter_click_missing_category
    (p : page) (t : target) (tgt : element) (f : Js.str) (j : nat) :
  element_at p t = Some tgt ->
  ClassList.contains (classList tgt) FILTER_BTN = true ->
  data_filter tgt = Some f -> f <> ALL ->
  first_without_category (cards p) = Some j ->
  let p' := Eff.state_of (on_click t p) in
  Eff.raised (on_click t p) = Some Js.TypeError
  /\ skipn j (cards p') = skipn j (cards p)
  /\ Forall2 (shown_as f) (firstn j (cards p)) (firstn j (cards p'))
  /\ (exists tgt', element_at p' t = Some tgt' /\
                   ClassList.contains (classList tgt') CLASSES.active = true).
Proof.
  intros Ht Hb Hfv Hf Hj p'.
  destruct (on_click_filter_button p t tgt Ht Hb) as [Hc [Hr _]].
  destruct (filter_cards_missing f (cards p) j Hf Hj) as [cs' [E [Hs H2]]].
  rewrite Hfv, E in Hc, Hr. cbn [fst snd] in Hc, Hr.
  unfold p'. rewrite Hc, Hr.
  split; [reflexivity | split; [exact Hs | split; [exact H2|]]].
  destruct (on_click_keeps_target p t tgt Ht Hb) as [tgt' [Ht' [_ [_ Ha]]]].
  now exists tgt'.
Qed.

Lemma filter_cards_not_all (fv : option Js.str) (cs : list card) :
  is_all fv = false ->
  Forall (fun c => category c <> None) cs ->
  filter_cards fv cs =
    (map (fun c =>
            set_shown
              (match category c with
               | Some cat => Js.includes cat (search_string fv)
               | None => false
               end) c) cs,
     None).
Proof.
  intros Ha. induction 1 as [|c cs Hc _ IH]; [reflexivity|].
  cbn [filter_cards map]. unfold isVisible. rewrite Ha.
  destruct (category c) as [cat|] eqn:Ec; [|contradiction].
  rewrite IH. unfold set_shown at 2. now rewrite Ec.
Qed.

Lemma js_includes_empty (s : Js.str) : Js.includes s [] = true.
Proof. apply js_includes_occurs. now exists [], s. Qed.

(** A filter button whose [data-filter] is empty shows every card, since
    the empty text occurs in every category; a filter button without the
    attribute searches for the text "null" and shows exactly the cards
    whose category contains it.  (Both on a page whose cards all carry a
    category.) *)
Theorem filter_click_without_value (p : page) (t : target) (tgt : element) :
  element_at p t = Some tgt ->
  ClassList.contains (classList tgt) FILTER_BTN = true ->
  Forall (fun c => category c <> None) (cards p) ->
  let p' := Eff.state_of (on_click t p) in
  (data_filter tgt = Some [] ->
   Eff.raised (on_click t p) = None /\
   map visible (cards p') = map (fun _ => true) (cards p))
  /\ (data_filter tgt = None ->
      Eff.raised (on_click t p) = None /\
      map visible (cards p') =
        map (fun c => match category c with
                      | Some cat => Js.includes cat (Js.lit "null")
                      | None => false
                      end) (cards p)).
Proof.
  intros Ht Hb Hcats p'.
  destruct (on_click_filter_button p t tgt Ht Hb) as [Hc [Hr _]].
  unfold p'. rewrite Hc, Hr. split; intros Hfv; rewrite Hfv.
  - rewrite (filter_cards_not_all (Some []) (cards p) eq_refl Hcats).
    cbn [fst snd]. split; [reflexivity|].
    rewrite map_map. apply map_ext_in. intros c Hin.
    rewrite visible_set_shown.
    rewrite Forall_forall in Hcats. specialize (Hcats c Hin).
    destruct (category c); [apply js_includes_empty | contradiction].
  - rewrite (filter_cards_not_all None (cards p) eq_refl Hcats).
    cbn [fst snd]. split; [reflexivity|].
    rewrite map_map. apply map_ext. intros c. apply visible_set_shown.
Qed.

End ProjectFilterEdges.

Lemma filter_click_missing_category_witness :
  Eff.raised
    (ProjectFilter.on_click (ProjectFilter.Child 0)
       (ProjectFilter.mkPage
          (ProjectFilter.mkElement [] None)
          [ProjectFilter.mkElement [Js.lit "filter-btn"] (Some (Js.lit "web"))]
          [ProjectFilter.mkCard [] (Some (Js.lit "mobile"));
           ProjectFilter.mkCard [] None;
           ProjectFilter.mkCard [] (Some (Js.lit "mobile"))]))
    = Some Js.TypeError
  /\ map ProjectFilter.visible
       (ProjectFilter.cards
          (Eff.state_of
             (ProjectFilter.on_click (ProjectFilter.Child 0)
                (ProjectFilter.mkPage
                   (ProjectFilter.mkElement [] None)
                   [ProjectFilter.mkElement [Js.lit "filter-btn"] (Some (Js.lit "web"))]
                   [ProjectFilter.mkCard [] (Some (Js.lit "mobile"));
                    ProjectFilter.mkCard [] None;
                    ProjectFilter.mkCard [] (Some (Js.lit "mobile"))]))))
     = [false; true; true].
Proof.
  assert (Hne : Js.lit "web" <> ProjectFilter.ALL) by discriminate.
  destruct (filter_click_missing_category
              (ProjectFilter.mkPage
                 (ProjectFilter.mkElement [] None)
                 [ProjectFilter.mkElement [Js.lit "filter-btn"] (Some (Js.lit "web"))]
                 [ProjectFilter.mkCard [] (Some (Js.lit "mobile"));
                  ProjectFilter.mkCard [] None;
                  ProjectFilter.mkCard [] (Some (Js.lit "mobile"))])
              (ProjectFilter.Child 0)
              (ProjectFilter.mkElement [Js.lit "filter-btn"] (Some (Js.lit "web")))
              (Js.lit "web") 1 eq_refl eq_refl eq_refl Hne eq_refl)
    as [Hr _].
  split; [exact Hr | reflexivity].
Defined.

Lemma filter_click_without_value_witness :
  map ProjectFilter.visible
    (ProjectFilter.cards
       (Eff.state_of
          (ProjectFilter.on_click (ProjectFilter.Child 0)
             (ProjectFilter.mkPage
                (ProjectFilter.mkElement [] None)
                [ProjectFilter.mkElement [Js.lit "filter-btn"] None]
                [ProjectFilter.mkCard [] (Some (Js.lit "web"));
                 ProjectFilter.mkCard [] (Some (Js.lit "nullable"))]))))
    = [false; true].
Proof.
  assert (Hc : Forall (fun c => ProjectFilter.category c <> None)
                 [ProjectFilter.mkCard [] (Some (Js.lit "web"));
                  ProjectFilter.mkCard [] (Some (Js.lit "nullable"))])
    by (repeat constructor; discriminate).
  destruct (filter_click_without_value
              (ProjectFilter.mkPage
                 (ProjectFilter.mkElement [] None)
                 [ProjectFilter.mkElement [Js.lit "filter-btn"] None]
                 [ProjectFilter.mkCard [] (Some (Js.lit "web"));
                  ProjectFilter.mkCard [] (Some (Js.lit "nullable"))])
              (ProjectFilter.Child 0)
              (ProjectFilter.mkElement [Js.lit "filter-btn"] None)
              eq_refl eq_refl Hc)
    as [_ Hnull].
  destruct (Hnull eq_refl) as [_ Hv]. rewrite Hv. reflexivity.
Defined.

(** ** Project modal, continued *)

Section ProjectModalMore.

Import ProjectModal ModalEvents.

Lemma openModal_complete (d : dataset) (p : page) (gh lk : link) :
  modalTitle p <> None -> modalDesc p <> None ->
  modalGithubLink p = Some gh -> modalLiveLink p = Some lk ->
  openModal d p =
    Eff.Ok tt
      (mkPage (Some (as_text (title d))) (Some (as_text (desc d)))
              (Some (mkLink (Some (as_url (github d))) (display gh)))
              (Some (if has_live (live d)
                     then mkLink (Some (as_url (live d))) INLINE_BLOCK
                     else mkLink (href lk) NONE))
              BLOCK).
Proof.
  intros Ht Hd Hg Hl. unfold openModal.
  destruct (modalTitle p); [|contradiction].
  cbn [modalDesc modalTitle modalGithubLink modalLiveLink modal_display].
  destruct (modalDesc p); [|contradiction].
  rewrite Hg, Hl. reflexivity.
Qed.

Lemma complete_links (p : page) :
  complete p ->
  modalTitle p <> None /\ modalDesc p <> None /\
  exists gh lk, modalGithubLink p = Some gh /\ modalLiveLink p = Some lk.
Proof.
  intros [Ht [Hd [Hg Hl]]]. split; [exact Ht | split; [exact Hd|]].
  destruct (modalGithubLink p) as [gh|]; [|contradiction].
  destruct (modalLiveLink p) as [lk|]; [|contradiction].
  now exists gh, lk.
Qed.

(** No history: on a page with all the dialog's elements, opening a second
    trigger shows what opening it first would have shown (title,
    description, source link, visibility of the live-demo action), whatever
    was open before.  Only the hidden live-demo link remembers: when the
    second trigger has no live demo, the link keeps the [href] the first
    one gave it. *)
Theorem open_modal_keeps_no_history (p : page) (d1 d2 : dataset) :
  complete p ->
  exists p1 p2 q2,
    openModal d1 p = Eff.Ok tt p1 /\
    openModal d2 p1 = Eff.Ok tt p2 /\
    openModal d2 p = Eff.Ok tt q2 /\
    content p2 = content q2 /\
    (has_live (live d2) = true -> p2 = q2) /\
    (has_live (live d2) = false ->
     live_href p2 = live_href p1 /\ live_href q2 = live_href p) /\
    (has_live (live d1) = true -> has_live (live d2) = false ->
     live_href p2 = live d1).
Proof.
  intros Hc. destruct (complete_links p Hc) as [Ht [Hd [gh [lk [Hg Hl]]]]].
  pose proof (openModal_complete d1 p gh lk Ht Hd Hg Hl) as E1.
  pose proof (openModal_complete d2 p gh lk Ht Hd Hg Hl) as E3.
  eexists. eexists. eexists. split; [exact E1|].
  split.
  { apply openModal_complete; cbn [modalTitle modalDesc modalGithubLink modalLiveLink];
      try discriminate; reflexivity. }
  split; [exact E3|].
  unfold content, live_href.
  cbn [modalTitle modalDesc modalGithubLink modalLiveLink modal_display display href].
  rewrite Hl.
  destruct (has_live (live d2)) eqn:H2.
  - split; [reflexivity|]. split; [reflexivity|].
    split; intros; discriminate.
  - cbn [option_map display href].
    split; [reflexivity|]. split; [discriminate|].
    split; [intros _; now split|].
    intros H1 _. rewrite H1. cbn [href].
    apply has_live_spec in H1 as [s [-> _]]. reflexivity.
Qed.

(** Missing parts of the dialog: without the title element nothing is
    written at all; without the live-demo link (the other three elements
    present) title, description and source link are already written when
    the TypeError is raised, and the dialog is not shown. *)
Theorem open_modal_partial_failure (p : page) (d : dataset) :
  (modalTitle p = None -> openModal d p = Eff.Throw Js.TypeError p)
  /\ (forall gh,
        modalTitle p <> None -> modalDesc p <> None ->
        modalGithubLink p = Some gh -> modalLiveLink p = None ->
        openModal d p =
          Eff.Throw Js.TypeError
            (mkPage (Some (as_text (title d))) (Some (as_text (desc d)))
                    (Some (mkLink (Some (as_url (github d))) (display gh)))
                    None (modal_display p))).
Proof.
  split.
  - intros Ht. unfold openModal. now rewrite Ht.
  - intros gh Ht Hd Hg Hl. unfold openModal.
    destruct (modalTitle p); [|contradiction].
    cbn [modalDesc modalTitle modalGithubLink modalLiveLink modal_display].
    destruct (modalDesc p); [|contradiction].
    rewrite Hg, Hl. reflexivity.
Qed.

(** Opening and closing: a click on a detail trigger shows the dialog;
    the Escape key, a click on the backdrop and the close button each hide
    it again and leave its content in place; once hidden, Escape no longer
    does anything; any other key, a click elsewhere in the window and a
    click in the grid outside every trigger change nothing. *)
Theorem modal_open_then_close (p : page) (d : dataset) :
  complete p ->
  exists p1,
    on_grid_click (Some d) p = Eff.Ok tt p1 /\
    modal_display p1 = BLOCK /\
    on_keydown ESCAPE p1 = closeModal p1 /\
    on_window_click true p1 = closeModal p1 /\
    modal_display (closeModal p1) = NONE /\
    (modalTitle (closeModal p1), modalDesc (closeModal p1),
     modalGithubLink (closeModal p1), modalLiveLink (closeModal p1))
    = (modalTitle p1, modalDesc p1, modalGithubLink p1, modalLiveLink p1) /\
    on_keydown ESCAPE (closeModal p1) = closeModal p1 /\
    (forall key, key <> ESCAPE -> on_keydown key p1 = p1) /\
    on_window_click false p1 = p1 /\
    on_grid_click None p1 = Eff.Ok tt p1.
Proof.
  intros Hc. destruct (complete_links p Hc) as [Ht [Hd [gh [lk [Hg Hl]]]]].
  pose proof (openModal_complete d p gh lk Ht Hd Hg Hl) as E.
  eexists. split; [exact E|].
  split; [reflexivity|].
  repeat split.
  intros key Hk. unfold on_keydown.
  assert (Js.eqb key ESCAPE = false) as -> by now apply js_eqb_neq.
  reflexivity.
Qed.

End ProjectModalMore.

Lemma open_modal_keeps_no_history_witness :
  ModalEvents.live_href
    (Eff.state_of
       (ProjectModal.openModal ProjectModal.trigger_without_live
          (Eff.state_of
             (ProjectModal.openModal ProjectModal.trigger_with_live
                ProjectModal.page_complete))))
    = Some (Js.lit "https://x").
Proof.
  assert (Hc : ModalEvents.complete ProjectModal.page_complete)
    by (repeat split; discriminate).
  destruct (open_modal_keeps_no_history ProjectModal.page_complete
              ProjectModal.trigger_with_live ProjectModal.trigger_without_live Hc)
    as [p1 [p2 [q2 [E1 [E2 [_ [_ [_ [_ Hstale]]]]]]]]].
  rewrite E1. cbn [Eff.state_of]. rewrite E2. cbn [Eff.state_of].
  apply Hstale; reflexivity.
Defined.

Lemma open_modal_partial_failure_witness :
  ProjectModal.openModal ProjectModal.trigger_with_live ProjectModal.page_without_title
  = Eff.Throw Js.TypeError ProjectModal.page_without_title.
Proof.
  apply (proj1 (open_modal_partial_failure ProjectModal.page_without_title
                  ProjectModal.trigger_with_live)).
  reflexivity.
Defined.

Lemma modal_open_then_close_witness :
  exists p1,
    ModalEvents.on_grid_click (Some ProjectModal.trigger_with_live)
      ProjectModal.page_complete = Eff.Ok tt p1 /\
    ProjectModal.modal_display (ModalEvents.on_keydown ModalEvents.ESCAPE p1)
    = ProjectModal.NONE.
Proof.
  assert (Hc : ModalEvents.complete ProjectModal.page_complete)
    by (repeat split; discriminate).
  destruct (modal_open_then_close ProjectModal.page_complete
              ProjectModal.trigger_with_live Hc)
    as [p1 [E [_ [Hk [_ [Hn _]]]]]].
  exists p1. split; [exact E|]. now rewrite Hk.
Defined.

(** ** Contact form, continued *)

Section ContactFormMore.

Import ContactForm FormErrors.

Lemma elapse_timers (dt : Z) (p : page) :
  timers (elapse dt p) =
  filter (fun tm => negb (fst tm <=? now p + dt)) (timers p).
Proof.
  unfold elapse.
  match goal with
  | |- context [fold_left ?f ?l ?q] =>
      destruct (run_callbacks_frame l q) as [_ [_ [_ [_ [Ht _]]]]]
  end.
  cbn zeta in Ht. now rewrite Ht.
Qed.

Lemma elapse_keeps_later (dt : Z) (p : page) (tm : Z * callback) :
  In tm (timers p) -> now p + dt < fst tm -> In tm (timers (elapse dt p)).
Proof.
  intros Hin Hlate. rewrite elapse_timers. apply filter_In. split; [exact Hin|].
  apply negb_true_iff. apply Z.leb_gt. exact Hlate.
Qed.

(** Every submission, turn by turn: where it ends, when, with which
    fields, and which of the older timers are still pending. *)
Lemma submission_state (p : page) (b : button) (fr : fetch_result) (latency reading : Z) :
  submitButton p = Some b ->
  exists q,
    submission fr latency reading p =
      Eff.Ok Settled
        (finished (displayed fr) (if failed fr then RED else GREEN) q) /\
    now q = now p + duration fr latency reading /\
    fields q = (if failed fr then fields p else map reset_field (fields p)) /\
    (0 <= latency -> 0 <= reading ->
     forall tm, In tm (timers p) ->
                now p + duration fr latency reading < fst tm ->
                In tm (timers q)).
Proof.
  intros H. unfold submission. rewrite (on_submit_spec p b H).
  set (p1 := mkPage _ (fields p) _ _ _ _).
  destruct (elapse_frame latency p1) as [Hb1 [Hf1 [Hn1 _]]].
  cbn [submitButton fields now p1] in Hb1, Hf1, Hn1.
  assert (K1 : forall tm, In tm (timers p) -> now p + latency < fst tm ->
                          In tm (timers (elapse latency p1))).
  { intros tm Hin Hl. now apply elapse_keeps_later. }
  destruct fr as [|r]; cbn [failed duration displayed].
  - rewrite (after_fetch_rejected _ _ Hb1).
    exists (elapse latency p1). repeat split; try assumption.
    intros _ _. exact K1.
  - destruct (ok r) eqn:Hok; cbn [negb].
    + rewrite (after_fetch_success _ _ r Hb1 Hok).
      eexists. split; [reflexivity|].
      cbn [now fields timers]. rewrite Hf1. repeat split; try assumption.
      intros _ _. exact K1.
    + rewrite (after_fetch_failure _ r Hok).
      destruct (elapse_frame reading (elapse latency p1)) as [Hb2 [Hf2 [Hn2 _]]].
      rewrite Hb1 in Hb2.
      rewrite (after_json_spec _ _ r Hb2).
      exists (elapse reading (elapse latency p1)).
      split; [reflexivity|]. split; [rewrite Hn2, Hn1; lia|].
      split; [now rewrite Hf2, Hf1|].
      intros Hl Hr tm Hin Hlate.
      apply elapse_keeps_later; [apply K1; [exact Hin | lia]|].
      rewrite Hn1. lia.
Qed.

(** A submission that fails keeps what the user typed: after a rejected
    request or a failure response the fields are exactly as they were, and
    the status is shown in red. *)
Theorem failed_submission_keeps_fields
    (p : page) (b : button) (fr : fetch_result) (latency reading : Z) :
  submitButton p = Some b -> failed fr = true ->
  exists p',
    submission fr latency reading p = Eff.Ok Settled p' /\
    fields p' = fields p /\
    status_color p' = RED.
Proof.
  intros Hb Hf.
  destruct (submission_state p b fr latency reading Hb) as [q [E [_ [Hfields _]]]].
  rewrite Hf in E, Hfields.
  eexists. split; [exact E|].
  cbn [finished fields status_color]. now split.
Qed.

(** While the request is in flight the form is locked: from the submit
    event on, however long the answer takes, the button stays disabled
    with the label "Mengirim...", and the fields stay as typed.  The
    message of an earlier submission is not taken down by the new one: it
    stays until a clearing timer is due. *)
Theorem form_locked_while_in_flight (p : page) (b : button) :
  submitButton p = Some b ->
  exists q,
    on_submit p = Eff.Ok AwaitFetch q /\
    forall dt,
      submitButton (elapse dt q) = Some (mkButton true SENDING) /\
      fields (elapse dt q) = fields p /\
      ((forall tm, In tm (timers p) -> now p + dt < fst tm) ->
       status_text (elapse dt q) = status_text p).
Proof.
  intros Hb. eexists. split; [exact (on_submit_spec p b Hb)|].
  intros dt.
  match goal with
  | |- context [elapse dt ?q] =>
      destruct (elapse_frame dt q) as [H1 [H2 _]];
      pose proof (elapse_idle dt q) as H3
  end.
  cbn [submitButton fields now timers status_text] in H1, H2, H3.
  split; [exact H1 | split; [exact H2 | exact H3]].
Qed.

(** The clearing timer is never cancelled.  When a second submission
    settles [d] ms after a first one did, with [d] under 6000, the timer
    of the first takes the second message down 6000 ms after the first
    message was set: the second message is on screen for [6000 - d] ms
    only. *)
Theorem second_message_cleared_early
    (p : page) (b : button) (fr1 fr2 : fetch_result)
    (latency1 reading1 latency2 reading2 : Z) :
  submitButton p = Some b ->
  0 <= latency2 -> 0 <= reading2 ->
  duration fr2 latency2 reading2 < TIMING.formStatusClear ->
  exists p1 p2,
    submission fr1 latency1 reading1 p = Eff.Ok Settled p1 /\
    submission fr2 latency2 reading2 p1 = Eff.Ok Settled p2 /\
    now p2 = now p1 + duration fr2 latency2 reading2 /\
    status_text p2 = displayed fr2 /\
    status_text
      (elapse (TIMING.formStatusClear - duration fr2 latency2 reading2) p2) = [].
Proof.
  intros Hb Hl Hr Hd.
  destruct (submission_state p b fr1 latency1 reading1 Hb) as [q1 [E1 _]].
  set (p1 := finished (displayed fr1) (if failed fr1 then RED else GREEN) q1) in E1.
  assert (Hb1 : submitButton p1 = Some (mkButton false SEND_LABEL)) by reflexivity.
  destruct (submission_state p1 _ fr2 latency2 reading2 Hb1)
    as [q2 [E2 [Hn2 [_ Hkeep]]]].
  set (p2 := finished (displayed fr2) (if failed fr2 then RED else GREEN) q2) in E2.
  exists p1, p2. split; [exact E1 | split; [exact E2|]].
  split; [exact Hn2 | split; [reflexivity|]].
  apply (elapse_clears _ p2 (now p1 + TIMING.formStatusClear) ClearStatus).
  - unfold p2. cbn [finished timers]. apply in_or_app. left.
    apply (Hkeep Hl Hr).
    + unfold p1. cbn [finished timers now]. apply in_or_app. right. now left.
    + cbn [fst]. lia.
  - unfold p2. cbn [finished now]. rewrite Hn2. lia.
Qed.

Lemma messages_of_entry_texts (errs : list Json.value) (parts : list Js.str) :
  Forall2 entry_text errs parts ->
  exists vs,
    Json.map_raising (fun err => Json.get err (Js.lit "message")) errs = inr vs /\
    Json.element_strings vs = inr parts.
Proof.
  induction 1 as [|e s errs parts [props [-> Hm]] _ [vs [E1 E2]]].
  - now exists [].
  - cbn [Json.map_raising Json.get]. rewrite E1.
    destruct Hm as [Hm | [[Hm ->] | [Hm ->]]]; rewrite Hm;
      eexists; (split; [reflexivity|]);
      cbn [Json.element_strings Json.element_string Json.to_string];
      now rewrite E2.
Qed.

(** Entries without a message: when the error list consists of objects, an
    entry whose [message] is missing or null contributes the empty text, so
    the status shows the other messages around bare separators (and, for
    the empty list, nothing at all) rather than the generic message. *)
Theorem failure_text_with_missing_messages
    (p : page) (b : button) (r : response) (latency reading : Z)
    (props : list (Js.str * Json.value)) (errs : list Json.value) (parts : list Js.str) :
  submitButton p = Some b -> ok r = false ->
  json r = Some (Json.Obj props) ->
  Json.lookup (Js.lit "errors") props = Some (Json.Arr errs) ->
  Forall2 entry_text errs parts ->
  status_text (Eff.state_of (submission (Resolved r) latency reading p)) =
  Js.join SEPARATOR parts.
Proof.
  intros Hb Hok Hj Hl Hs.
  destruct (submission_state p b (Resolved r) latency reading Hb) as [q [E _]].
  rewrite E. cbn [Eff.state_of finished status_text displayed]. rewrite Hok.
  unfold displayed_on_failure, errorMessage. rewrite Hj. cbn [Json.get].
  rewrite Hl. cbn [Json.truthy].
  destruct (messages_of_entry_texts errs parts Hs) as [vs [E1 E2]].
  rewrite E1. unfold Json.join. now rewrite E2.
Qed.

Lemma null_entry_raises (errs : list Json.value) :
  In Json.Null errs ->
  Json.map_raising (fun err => Json.get err (Js.lit "message")) errs =
  inl Js.TypeError.
Proof.
  induction errs as [|x errs IH]; intros Hin; [contradiction|].
  cbn [Json.map_raising].
  destruct x; cbn [Json.get];
    try (destruct Hin as [Hx | Hin]; [discriminate|]; rewrite (IH Hin); reflexivity).
  reflexivity.
Qed.

(** Bodies that are JSON but not of the documented shape end in the
    [catch] block: when the body is null, when [errors] is there but is
    not a list (true, a non-empty text, an object), or when one entry of
    the list is null, the status shows the connection message. *)
Theorem failure_text_on_misshapen_body
    (p : page) (b : button) (r : response) (latency reading : Z) :
  submitButton p = Some b -> ok r = false ->
  (json r = Some Json.Null
   \/ (exists props v,
         json r = Some (Json.Obj props) /\
         Json.lookup (Js.lit "errors") props = Some v /\
         (v = Json.Bool true \/ (exists s, v = Json.Str s /\ s <> []) \/
          exists ps, v = Json.Obj ps))
   \/ (exists props errs,
         json r = Some (Json.Obj props) /\
         Json.lookup (Js.lit "errors") props = Some (Json.Arr errs) /\
         In Json.Null errs)) ->
  status_text (Eff.state_of (submission (Resolved r) latency reading p)) =
  MSG_CONNECTION.
Proof.
  intros Hb Hok Hshape.
  destruct (submission_state p b (Resolved r) latency reading Hb) as [q [E _]].
  rewrite E. cbn [Eff.state_of finished status_text displayed]. rewrite Hok.
  unfold displayed_on_failure, errorMessage.
  destruct Hshape as [Hj | [[props [v [Hj [Hl Hv]]]] | [props [errs [Hj [Hl Hin]]]]]];
    rewrite Hj; cbn [Json.get]; try reflexivity; rewrite Hl.
  - destruct Hv as [-> | [[s [-> Hs]] | [ps ->]]]; cbn [Json.truthy];
      try reflexivity.
    assert (Js.eqb s [] = false) as -> by now apply js_eqb_neq.
    reflexivity.
  - cbn [Json.truthy]. now rewrite (null_entry_raises errs Hin).
Qed.

End ContactFormMore.

Lemma failed_submission_keeps_fields_witness :
  exists p',
    ContactForm.submission (ContactForm.Resolved ContactForm.response_422) 300 20
      ContactForm.page_filled_in = Eff.Ok ContactForm.Settled p' /\
    map ContactForm.value (ContactForm.fields p') =
      [Js.lit "Ana"; Js.lit "ana@example.org"; Js.lit "Halo"].
Proof.
  destruct (failed_submission_keeps_fields ContactForm.page_filled_in
              (ContactForm.mkButton false ContactForm.SEND_LABEL)
              (ContactForm.Resolved ContactForm.response_422) 300 20
              eq_refl eq_refl)
    as [p' [E [Hf _]]].
  exists p'. split; [exact E|]. now rewrite Hf.
Defined.

Lemma form_locked_while_in_flight_witness :
  exists q,
    ContactForm.on_submit ContactForm.page_filled_in
      = Eff.Ok ContactForm.AwaitFetch q /\
    ContactForm.submitButton (ContactForm.elapse 2500 q)
      = Some (ContactForm.mkButton true ContactForm.SENDING).
Proof.
  destruct (form_locked_while_in_flight ContactForm.page_filled_in
              (ContactForm.mkButton false ContactForm.SEND_LABEL) eq_refl)
    as [q [E H]].
  exists q. split; [exact E|]. exact (proj1 (H 2500)).
Defined.

Lemma second_message_cleared_early_witness :
  exists p1 p2,
    ContactForm.submission ContactForm.Rejected 300 20 ContactForm.page_filled_in
      = Eff.Ok ContactForm.Settled p1 /\
    ContactForm.submission (ContactForm.Resolved ContactForm.response_200) 4000 20 p1
      = Eff.Ok ContactForm.Settled p2 /\
    ContactForm.status_text p2 = ContactForm.MSG_SUCCESS /\
    ContactForm.status_text (ContactForm.elapse 2000 p2) = [].
Proof.
  assert (H0 : 0 <= 4000) by lia.
  assert (H1 : 0 <= 20) by lia.
  assert (H2 : FormErrors.duration (ContactForm.Resolved ContactForm.response_200)
                 4000 20 < TIMING.formStatusClear) by reflexivity.
  destruct (second_message_cleared_early ContactForm.page_filled_in
              (ContactForm.mkButton false ContactForm.SEND_LABEL)
              ContactForm.Rejected (ContactForm.Resolved ContactForm.response_200)
              300 20 4000 20 eq_refl H0 H1 H2)
    as [p1 [p2 [E1 [E2 [_ [Hs Hc]]]]]].
  exists p1, p2. repeat split; assumption.
Defined.

Lemma failure_text_with_missing_messages_witness :
  ContactForm.status_text
    (Eff.state_of
       (ContactForm.submission
          (ContactForm.Resolved
             (ContactForm.mkResponse 422
                (Some (Json.Obj
                   [(Js.lit "errors",
                     Json.Arr [Json.Obj [(Js.lit "message", Json.Str (Js.lit "Email required"))];
                               Json.Obj [(Js.lit "field", Json.Str (Js.lit "name"))]])]))))
          300 20 ContactForm.page_filled_in))
  = Js.lit "Email required, ".
Proof.
  apply (failure_text_with_missing_messages ContactForm.page_filled_in
           (ContactForm.mkButton false ContactForm.SEND_LABEL)
           (ContactForm.mkResponse 422
              (Some (Json.Obj
                 [(Js.lit "errors",
                   Json.Arr [Json.Obj [(Js.lit "message", Json.Str (Js.lit "Email required"))];
                             Json.Obj [(Js.lit "field", Json.Str (Js.lit "name"))]])])))
           300 20
           [(Js.lit "errors",
             Json.Arr [Json.Obj [(Js.lit "message", Json.Str (Js.lit "Email required"))];
                       Json.Obj [(Js.lit "field", Json.Str (Js.lit "name"))]])]
           [Json.Obj [(Js.lit "message", Json.Str (Js.lit "Email required"))];
            Json.Obj [(Js.lit "field", Json.Str (Js.lit "name"))]]
           [Js.lit "Email required"; []] eq_refl eq_refl eq_refl eq_refl).
  constructor; [|constructor; [|constructor]].
  - eexists. split; [reflexivity|]. left. reflexivity.
  - eexists. split; [reflexivity|]. right. left. now split.
Defined.

Lemma failure_text_on_misshapen_body_witness :
  ContactForm.status_text
    (Eff.state_of
       (ContactForm.submission (ContactForm.Resolved ContactForm.response_errors_text)
          300 20 ContactForm.page_filled_in))
  = ContactForm.MSG_CONNECTION.
Proof.
  apply (failure_text_on_misshapen_body ContactForm.page_filled_in
           (ContactForm.mkButton false ContactForm.SEND_LABEL)
           ContactForm.response_errors_text 300 20 eq_refl eq_refl).
  right. left. eexists. eexists. split; [reflexivity|]. split; [reflexivity|].
  right. left. eexists. split; [reflexivity | discriminate].
Defined.
